(** * Quotation Vault: the extraction router and the ingestion sequencer

    A shallow embedding of [extractText], [withTimeout], [handleUpload] and
    [fetchQuotations] of the single-page upload utility (App.tsx), with the
    properties of its per-file pipeline.

    Conventions of the embedding.
    - A JavaScript string is a [string]; one character stands for one UTF-16
      code unit, so [String.length] is the [length] property.
    - A JavaScript number that holds a count is a [nat] or a [Z]; the one
      computation done in double precision, the progress percentage, is
      evaluated on binary64 floats ([PrimFloat]).
    - A promise is the time (in ms, relative to its creation) at which it
      settles together with its outcome, or [Pending] when it never settles.
    - The calls to the cloud backend ([uploadBytes], [getDownloadURL],
      [addDoc], [getDocs]) are awaited without a timer: the embedding takes
      their settled outcome from the environment.  Object storage and the
      document collection are explicit components of the state.
    - [localeCompare] is a function of the host; it is a parameter. *)

From Stdlib Require Import ZArith NArith List String Ascii Bool Lia.
From Stdlib Require Import Floats Uint63 DecimalString DecimalN Sorted Permutation OrderedTypeEx.
Import ListNotations.
Local Open Scope string_scope.
Local Open Scope Z_scope.

(** ** JavaScript values used by the program *)

(** A thrown value: an [Error] object with its [message], or any other value
    (one that has no [message] property, [null] and [undefined] included). *)
Inductive Thrown : Type :=
| Error (message : string)
| NonError.

(** [(err as Error)?.message] *)
Definition message (err : Thrown) : option string :=
  match err with
  | Error m => Some m
  | NonError => None
  end.

(** [a || b] where [a] is a string or [undefined]: the empty string and
    [undefined] are falsy. *)
Definition or_else (a : option string) (b : string) : string :=
  match a with
  | Some (String c s) => String c s
  | Some EmptyString => b
  | None => b
  end.

(** [s ? true : false] for a string. *)
Definition truthy (s : string) : bool :=
  match s with
  | EmptyString => false
  | String _ _ => true
  end.

(** [s.startsWith(p)] *)
Definition startsWith (s p : string) : bool := String.prefix p s.

(** [s.slice(b, e)] for [0 <= b <= e]. *)
Definition slice (s : string) (b e : nat) : string := String.substring b (e - b) s.

(** Decimal rendering of a non-negative integer inside a template literal. *)
Definition decimal (n : N) : string := NilZero.string_of_uint (N.to_uint n).

(** *** Numbers: the double-precision operations of the progress update *)

(** The double that holds a count (exact below 2^53). *)
Definition Number (k : nat) : float := PrimFloat.of_uint63 (Uint63.of_Z (Z.of_nat k)).

(** [Math.round]: the integer closest to [x], ties towards +infinity.  The
    value of the finite float [(-1)^s * m * 2^e] is rounded exactly, in [Z].
    (On NaN and the infinities [Math.round] returns its argument; they do not
    arise from a quotient of two positive counts, and are sent to 0 here.) *)
Definition Math_round (x : float) : Z :=
  match Prim2SF x with
  | S754_finite s m e =>
      let v := if s then Z.neg m else Z.pos m in
      if 0 <=? e then v * 2 ^ e else (2 * v + 2 ^ (- e)) / 2 ^ (- e + 1)
  | _ => 0
  end.

(** ** Promises *)

Inductive Outcome (T : Type) : Type :=
| Fulfilled (v : T)
| Rejected (err : Thrown).
Arguments Fulfilled {T} v.
Arguments Rejected {T} err.

Inductive Promise (T : Type) : Type :=
| Settles (t : N) (o : Outcome T)
| Pending.
Arguments Settles {T} t o.
Arguments Pending {T}.

Module PromiseNotations.
Declare Scope promise_scope.
Delimit Scope promise_scope with promise.
End PromiseNotations.
Import PromiseNotations.

(** [return v] of an async function: settles at once. *)
Definition resolve {T} (v : T) : Promise T := Settles 0 (Fulfilled v).

(** [const x = await p; k x] inside an async function: a rejection of [p]
    ends the function, a pending [p] suspends it for ever. *)
Definition await {A B} (p : Promise A) (k : A -> Promise B) : Promise B :=
  match p with
  | Pending => Pending
  | Settles t (Rejected err) => Settles t (Rejected err)
  | Settles t (Fulfilled v) =>
      match k v with
      | Pending => Pending
      | Settles u o => Settles (t + u) o
      end
  end.

Notation "x <- p ;; k" := (await p (fun x => k))
  (at level 61, p at next level, right associativity) : promise_scope.

(** [Promise.race([p, q])]: the one that settles first; [p] is subscribed
    first, so it wins when both settle at the same instant. *)
Definition race2 {T} (p q : Promise T) : Promise T :=
  match p, q with
  | Settles t _, Settles u _ => if (t <=? u)%N then p else q
  | Settles _ _, Pending => p
  | Pending, _ => q
  end.

Definition Promise_race {T} (ps : list (Promise T)) : Promise T :=
  fold_right race2 Pending ps.

(** [new Promise((_, reject) => setTimeout(() => reject(e), ms))] *)
Definition rejectAfter {T} (ms : N) (e : Thrown) : Promise T :=
  Settles ms (Rejected e).

Definition default_ms : N := 10000.

Definition withTimeout {T} (promise : Promise T) (ms : N) : Promise T :=
  Promise_race [promise; rejectAfter ms (Error "Extraction timed out")].

(** ** Data model *)

Module File.
Record t : Type := mk
  { name : string;
    type : string;
    lastModified : N }.
End File.

Module QuotationDoc.
Record t : Type := mk
  { id : option string;
    fileUrl : string;
    filename : string;
    type : string;
    uploaded : string;
    extractedText : string;
    error : option string }.
End QuotationDoc.

(** A document of the [quotations] collection: its id and its data. *)
Definition StoredDoc : Type := (string * QuotationDoc.t)%type.

(** What [Tesseract.recognize] and [mammoth.extractRawText] resolve to. *)
Record OcrResult : Type := { data_text : option string }.
Record RawText : Type := { value : option string }.

(** The environment of one loop iteration: what the engines, the clock and
    the backend answer while file [i] is processed. *)
Record Env : Type :=
  { recognize : Promise OcrResult;
    arrayBuffer : Promise (list Byte.byte);
    extractRawText : list Byte.byte -> Promise RawText;
    text : Promise string;
    Date_now : N;
    uploadBytes : Outcome unit;
    getDownloadURL : Outcome string;
    toISOString : string;
    addDoc : Outcome string }.

(** ** Extraction router *)

Definition pdfType : string := "application/pdf".
Definition docxType : string :=
  "application/vnd.openxmlformats-officedocument.wordprocessingml.document".

Definition extractText (file : File.t) (env : Env) : Promise string :=
  let type := File.type file in
  if startsWith type "image/" then
    (result <- withTimeout (recognize env) default_ms ;;
     resolve (or_else (data_text result) ""))%promise
  else if String.eqb type pdfType then
    resolve "[PDF text extraction coming soon]"
  else if String.eqb type docxType then
    (buffer <- withTimeout (arrayBuffer env) default_ms ;;
     result <- withTimeout (extractRawText env buffer) default_ms ;;
     resolve (or_else (value result) ""))%promise
  else if startsWith type "text/" then
    (txt <- withTimeout (text env) default_ms ;;
     resolve txt)%promise
  else
    resolve "[Unsupported file type]".

(** ** Application state

    The React state of [App] ([files], [processing], [progress], [step],
    [quotations], [search], [error]) and the two backend stores: [bucket] is
    the object storage (key, file), [db] the [quotations] collection. *)

Record State : Type := mkState
  { files : list File.t;
    processing : bool;
    progress : Z;
    step : string;
    quotations : list QuotationDoc.t;
    search : string;
    error : option string;
    bucket : list (string * File.t);
    db : list StoredDoc }.

Definition initial : State :=
  mkState [] false 0 "" [] "" None [] [].

Definition setFiles (v : list File.t) (w : State) : State :=
  mkState v (processing w) (progress w) (step w) (quotations w) (search w)
          (error w) (bucket w) (db w).
Definition setProcessing (v : bool) (w : State) : State :=
  mkState (files w) v (progress w) (step w) (quotations w) (search w)
          (error w) (bucket w) (db w).
Definition setProgress (v : Z) (w : State) : State :=
  mkState (files w) (processing w) v (step w) (quotations w) (search w)
          (error w) (bucket w) (db w).
Definition setStep (v : string) (w : State) : State :=
  mkState (files w) (processing w) (progress w) v (quotations w) (search w)
          (error w) (bucket w) (db w).
Definition setQuotations (v : list QuotationDoc.t) (w : State) : State :=
  mkState (files w) (processing w) (progress w) (step w) v (search w)
          (error w) (bucket w) (db w).
Definition setError (v : option string) (w : State) : State :=
  mkState (files w) (processing w) (progress w) (step w) (quotations w)
          (search w) v (bucket w) (db w).
(** Effect of a fulfilled [uploadBytes(storageRef, file)]. *)
Definition storePut (key : string) (file : File.t) (w : State) : State :=
  mkState (files w) (processing w) (progress w) (step w) (quotations w)
          (search w) (error w) (bucket w ++ [(key, file)]) (db w).
(** Effect of a fulfilled [addDoc(collection(db, 'quotations'), record)]. *)
Definition dbInsert (docId : string) (record : QuotationDoc.t) (w : State) : State :=
  mkState (files w) (processing w) (progress w) (step w) (quotations w)
          (search w) (error w) (bucket w) (db w ++ [(docId, record)]).

(** [handleFilesChange]: the selection replaces [files]. *)
Definition handleFilesChange (selected : option (list File.t)) (w : State) : State :=
  match selected with
  | Some fs => setFiles fs w
  | None => w
  end.

(** The progress line of the page: rendered only while [processing], it
    shows the step label (or "Processing...") and the percentage when it is
    positive. *)
Definition progressLine (w : State) : option string :=
  if processing w then
    Some ((if truthy (step w) then step w else "Processing...") ++ " "
          ++ (if 0 <? progress w then decimal (Z.to_N (progress w)) ++ "%" else ""))
  else None.

(** ** Ingestion sequencer: one iteration of the loop of [handleUpload] *)

(** The first [try]/[catch]: the locals [extractedText] and [errorMsg] after
    it, and the state.  [None]: the awaited promise never settles. *)
Definition extractBlock (file : File.t) (env : Env) (w : State)
  : option (string * string * State) :=
  let extractedText := "" in
  let errorMsg := "" in
  match extractText file env with
  | Pending => None
  | Settles _ (Fulfilled txt) => Some (txt, errorMsg, w)
  | Settles _ (Rejected err) =>
      let errorMsg := or_else (message err) "Extraction failed" in
      Some (extractedText, errorMsg,
            setError (Some ("Extraction failed: " ++ File.name file ++ ": " ++ errorMsg)) w)
  end.

(** The [catch] clause of the second [try]. *)
Definition uploadCatch (file : File.t) (err : Thrown) (w : State) : State :=
  let upErr := or_else (message err) "Upload failed" in
  setError (Some ("Upload failed: " ++ File.name file ++ ": " ++ upErr)) w.

(** The record literal built once the download URL is known. *)
Definition mkRecord (file : File.t) (env : Env) (url extractedText errorMsg : string)
  : QuotationDoc.t :=
  QuotationDoc.mk None url (File.name file) (File.type file) (toISOString env)
    (slice extractedText 0 600)
    (if truthy errorMsg then Some errorMsg else None).

(** The second [try]/[catch]. *)
Definition uploadBlock (file : File.t) (env : Env) (extractedText errorMsg : string)
  (w : State) : State :=
  let storageRef := "quotations/" ++ File.name file ++ "_" ++ decimal (Date_now env) in
  match uploadBytes env with
  | Rejected err => uploadCatch file err w
  | Fulfilled _ =>
      let w := storePut storageRef file w in
      match getDownloadURL env with
      | Rejected err => uploadCatch file err w
      | Fulfilled url =>
          let record := mkRecord file env url extractedText errorMsg in
          match addDoc env with
          | Rejected err => uploadCatch file err w
          | Fulfilled docId => dbInsert docId record w
          end
      end
  end.

(** The percentage [Math.round(((i + 1) / files.length) * 100)]. *)
Definition percent (i n : nat) : Z :=
  Math_round (PrimFloat.mul (PrimFloat.div (Number (i + 1)) (Number n)) (Number 100)).

(** The body of the [for] loop at index [i] of a batch of [n] files. *)
Definition iteration (n i : nat) (file : File.t) (env : Env) (w : State)
  : option State :=
  let w := setStep ("Extracting text: " ++ File.name file) w in
  match extractBlock file env w with
  | None => None
  | Some (extractedText, errorMsg, w) =>
      let w := setStep ("Uploading: " ++ File.name file) w in
      let w := uploadBlock file env extractedText errorMsg w in
      Some (setProgress (percent i n) w)
  end.

(** The loop from index [i] over the files not yet processed; [env k] is the
    environment met at iteration [k]. *)
Fixpoint loop (env : nat -> Env) (n i : nat) (rest : list File.t) (w : State)
  : option State :=
  match rest with
  | [] => Some w
  | file :: rest' =>
      match iteration n i file (env i) w with
      | None => None
      | Some w' => loop env n (S i) rest' w'
      end
  end.

(** ** Read path and the whole run *)

(** [{ id: doc.id, ...doc.data() }]: a field [id] of the data wins. *)
Definition withId (d : StoredDoc) : QuotationDoc.t :=
  let '(docId, data) := d in
  QuotationDoc.mk
    (match QuotationDoc.id data with Some i => Some i | None => Some docId end)
    (QuotationDoc.fileUrl data) (QuotationDoc.filename data)
    (QuotationDoc.type data) (QuotationDoc.uploaded data)
    (QuotationDoc.extractedText data) (QuotationDoc.error data).

(** [Array.prototype.sort(comparefn)]: a stable sort; [a] stays before [b]
    unless [comparefn(a, b) > 0]. *)
Section ArraySort.
Context {A : Type} (comparefn : A -> A -> Z).

Fixpoint sortInsert (a : A) (l : list A) : list A :=
  match l with
  | [] => [a]
  | b :: l' => if comparefn a b <=? 0 then a :: b :: l' else b :: sortInsert a l'
  end.

Fixpoint Array_sort (l : list A) : list A :=
  match l with
  | [] => []
  | a :: l' => sortInsert a (Array_sort l')
  end.
End ArraySort.

Section App.
(** [String.prototype.localeCompare] of the host. *)
Variable localeCompare : string -> string -> Z.

Definition byUploadedDesc (a b : QuotationDoc.t) : Z :=
  localeCompare (QuotationDoc.uploaded b) (QuotationDoc.uploaded a).

(** [getDocs] settles with the documents of the collection or rejects; on
    rejection the function throws before [setQuotations].  The snapshot lists
    the documents in the order of [db]; the sort is stable, so documents with
    equal timestamps keep that order. *)
Definition fetchQuotations (getDocs : Outcome unit) (w : State)
  : State * Outcome unit :=
  match getDocs with
  | Rejected err => (w, Rejected err)
  | Fulfilled _ =>
      let data := map withId (db w) in
      (setQuotations (Array_sort byUploadedDesc data) w, Fulfilled tt)
  end.

(** [handleUpload], started in state [w] (the batch is [files w], captured
    by the closure).  [None]: the run never completes. *)
Definition handleUpload (env : nat -> Env) (getDocs : Outcome unit) (w : State)
  : option (State * Outcome unit) :=
  let batch := files w in
  let w := setProcessing true w in
  let w := setProgress 0 w in
  let w := setError None w in
  match loop env (List.length batch) 0 batch w with
  | None => None
  | Some w =>
      let w := setProcessing false w in
      let w := setFiles [] w in
      let w := setStep "" w in
      Some (fetchQuotations getDocs w)
  end.
End App.


(** ** Vocabulary of the statements *)

(** The error every timer rejects with. *)
Definition timedOut : Thrown := Error "Extraction timed out".

(** The timer settles strictly before the work does (or the work never
    settles). *)
Definition timerFirst {T} (work : Promise T) (ms : N) : Prop :=
  match work with
  | Pending => True
  | Settles t _ => (ms < t)%N
  end.

(** The locals [extractedText] and [errorMsg] after the first [try]/[catch],
    read off the outcome [p] of the file's own extraction. *)
Definition textOf (p : Promise string) : string :=
  match p with
  | Settles _ (Fulfilled txt) => txt
  | _ => ""
  end.

Definition errorMsgOf (p : Promise string) : string :=
  match p with
  | Settles _ (Rejected err) => or_else (message err) "Extraction failed"
  | _ => ""
  end.

(** The [error] field of the record, read off the same outcome. *)
Definition errorOf (p : Promise string) : option string :=
  match p with
  | Settles _ (Rejected err) => Some (or_else (message err) "Extraction failed")
  | _ => None
  end.

(** The notices written to the error banner by the two [catch] clauses. *)
Definition extractionNotice (file : File.t) (p : Promise string) : option string :=
  match p with
  | Settles _ (Rejected err) =>
      Some ("Extraction failed: " ++ File.name file ++ ": "
            ++ or_else (message err) "Extraction failed")
  | _ => None
  end.

Definition uploadFailure (env : Env) : option Thrown :=
  match uploadBytes env, getDownloadURL env, addDoc env with
  | Rejected err, _, _ => Some err
  | Fulfilled _, Rejected err, _ => Some err
  | Fulfilled _, Fulfilled _, Rejected err => Some err
  | Fulfilled _, Fulfilled _, Fulfilled _ => None
  end.

Definition uploadNotice (file : File.t) (env : Env) : option string :=
  match uploadFailure env with
  | Some err =>
      Some ("Upload failed: " ++ File.name file ++ ": "
            ++ or_else (message err) "Upload failed")
  | None => None
  end.

(** The key under which a file is stored. *)
Definition storageKey (file : File.t) (env : Env) : string :=
  "quotations/" ++ File.name file ++ "_" ++ decimal (Date_now env).

(** The documents one iteration adds to the collection: one when the three
    backend calls are fulfilled, none otherwise. *)
Definition createdBy (file : File.t) (env : Env) : list StoredDoc :=
  match uploadBytes env, getDownloadURL env, addDoc env with
  | Fulfilled _, Fulfilled url, Fulfilled docId =>
      [(docId, mkRecord file env url (textOf (extractText file env))
                        (errorMsgOf (extractText file env)))]
  | _, _, _ => []
  end.

(** The documents added by the iterations [i], [i+1], ... over [rest]. *)
Fixpoint createdFrom (env : nat -> Env) (i : nat) (rest : list File.t)
  : list StoredDoc :=
  match rest with
  | [] => []
  | file :: rest' => (createdBy file (env i) ++ createdFrom env (S i) rest')%list
  end.

(** What one iteration does to each component of the state. *)
Record IterationSpec (n i : nat) (file : File.t) (env : Env) (w w' : State) : Prop :=
  { it_files : files w' = files w;
    it_processing : processing w' = processing w;
    it_progress : progress w' = percent i n;
    it_step : step w' = "Uploading: " ++ File.name file;
    it_quotations : quotations w' = quotations w;
    it_search : search w' = search w;
    it_error :
      error w' = match uploadNotice file env with
                 | Some m => Some m
                 | None => match extractionNotice file (extractText file env) with
                           | Some m => Some m
                           | None => error w
                           end
                 end;
    it_bucket :
      bucket w' = match uploadBytes env with
                  | Fulfilled _ => (bucket w ++ [(storageKey file env, file)])%list
                  | Rejected _ => bucket w
                  end;
    it_db : db w' = (db w ++ createdBy file env)%list }.

(** What the loop over [rest], started at index [i], does to the state. *)
Record LoopSpec (env : nat -> Env) (n i : nat) (rest : list File.t) (w w' : State)
  : Prop :=
  { lp_files : files w' = files w;
    lp_processing : processing w' = processing w;
    lp_progress :
      progress w' = match rest with
                    | [] => progress w
                    | _ :: _ => percent (i + List.length rest - 1) n
                    end;
    lp_quotations : quotations w' = quotations w;
    lp_search : search w' = search w;
    lp_db : db w' = (db w ++ createdFrom env i rest)%list }.

(** The specification's progress value: round(100 x (i+1) / n), the nearest
    integer of the exact quotient, a tie going up (as [Math.round] does). *)
Definition spec_progress (i n : nat) : Z :=
  (2 * (100 * Z.of_nat (i + 1)) + Z.of_nat n) / (2 * Z.of_nat n).

(** The same with a tie going to the even neighbour. *)
Definition spec_progress_half_even (i n : nat) : Z :=
  let num := 100 * Z.of_nat (i + 1) in
  let den := Z.of_nat n in
  let q := num / den in
  let r := num mod den in
  if 2 * r <? den then q
  else if den <? 2 * r then q + 1
  else if Z.even q then q else q + 1.

(** [f i n] holds for every batch size [n <= bound] and index [i < n]. *)
Definition triangle (f : nat -> nat -> bool) (bound : nat) : bool :=
  forallb (fun n => forallb (fun i => f i n) (seq 0 n)) (seq 1 bound).

Definition agreesAt (i n : nat) : bool := percent i n =? spec_progress i n.

(** The quotients (i+1)/n whose double-precision percentage falls below the
    half it should reach: 23/40, 29/200, 57/200 and 113/200. *)
Definition fallsShort (i n : nat) : bool :=
  let k := Z.of_nat (i + 1) in
  let m := Z.of_nat n in
  (40 * k =? 23 * m) || (200 * k =? 29 * m) || (200 * k =? 57 * m)
  || (200 * k =? 113 * m).

Definition characterisedAt (i n : nat) : bool :=
  percent i n =? spec_progress i n - (if fallsShort i n then 1 else 0).

(** The format of [Date.prototype.toISOString]: YYYY-MM-DDTHH:mm:ss.sssZ. *)
Definition isDigit (c : ascii) : bool :=
  ((48 <=? nat_of_ascii c) && (nat_of_ascii c <=? 57))%nat.

Fixpoint matchesPattern (pattern s : string) : bool :=
  match pattern, s with
  | EmptyString, EmptyString => true
  | String p pattern', String c s' =>
      (if Ascii.eqb p "d" then isDigit c else Ascii.eqb p c)
      && matchesPattern pattern' s'
  | _, _ => false
  end.

Definition isISOString (s : string) : bool :=
  matchesPattern "dddd-dd-ddTdd:dd:dd.dddZ" s.

(** [a] is displayed before [b]: the timestamp of [a] is not smaller than
    that of [b] in the lexicographic order of strings. *)
Definition notOlder (a b : QuotationDoc.t) : Prop :=
  String.compare (QuotationDoc.uploaded b) (QuotationDoc.uploaded a) <> Gt.

(** The stored document carries a timestamp of the ISO format. *)
Definition hasISOStamp (d : StoredDoc) : Prop :=
  isISOString (QuotationDoc.uploaded (snd d)) = true.

Definition isoDoc (q : QuotationDoc.t) : Prop :=
  isISOString (QuotationDoc.uploaded q) = true.

(** A host whose [localeCompare] orders timestamps of the ISO format as the
    lexicographic order does. *)
Definition agreesOnISO (localeCompare : string -> string -> Z) : Prop :=
  forall a b, isISOString a = true -> isISOString b = true ->
              (localeCompare a b ?= 0) = String.compare a b.

(** A [localeCompare] that is the code-unit order. *)
Definition codeUnitCompare (a b : string) : Z :=
  match String.compare a b with
  | Lt => -1
  | Eq => 0
  | Gt => 1
  end.

(** What the promise of [handleUpload] settles with: the fetch is awaited
    outside any [try], so its rejection is the rejection of the run. *)
Definition propagated (getDocs : Outcome unit) : Outcome unit :=
  match getDocs with
  | Fulfilled _ => Fulfilled tt
  | Rejected err => Rejected err
  end.

(** ** Sample inputs *)

Definition pdfFile : File.t := File.mk "doc.pdf" "application/pdf" 0.
Definition docxFile : File.t := File.mk "huge.docx" docxType 0.
Definition txtFile : File.t := File.mk "b.txt" "text/plain" 0.
Definition pngFile : File.t := File.mk "image.png" "image/png" 0.
Definition zipFile : File.t := File.mk "a.zip" "application/zip" 0.

(** Every engine hangs; the backend accepts. *)
Definition hangingEnv : Env :=
  {| recognize := Pending;
     arrayBuffer := Pending;
     extractRawText := fun _ => Pending;
     text := Pending;
     Date_now := 1700000000000;
     uploadBytes := Fulfilled tt;
     getDownloadURL := Fulfilled "https://storage.example/doc";
     toISOString := "2023-11-14T22:13:20.000Z";
     addDoc := Fulfilled "doc1" |}.

(** The text is read in 5 ms; the database insert is refused. *)
Definition refusingEnv : Env :=
  {| recognize := Pending;
     arrayBuffer := Pending;
     extractRawText := fun _ => Pending;
     text := Settles 5 (Fulfilled "hello");
     Date_now := 1700000000001;
     uploadBytes := Fulfilled tt;
     getDownloadURL := Fulfilled "https://storage.example/b";
     toISOString := "2023-11-14T22:13:20.001Z";
     addDoc := Rejected (Error "permission-denied") |}.

(** The OCR answers "Invoice #1" after 800 ms; the backend accepts. *)
Definition invoiceEnv : Env :=
  {| recognize := Settles 800 (Fulfilled {| data_text := Some "Invoice #1" |});
     arrayBuffer := Pending;
     extractRawText := fun _ => Pending;
     text := Settles 3 (Fulfilled "plain text");
     Date_now := 1700000000002;
     uploadBytes := Fulfilled tt;
     getDownloadURL := Fulfilled "https://storage.example/image";
     toISOString := "2023-11-14T22:13:20.002Z";
     addDoc := Fulfilled "doc0" |}.

(** The environments of a run over two files: the first is accepted, the
    insert of the second is refused. *)
Definition secondRefused (k : nat) : Env :=
  match k with
  | O => invoiceEnv
  | _ => refusingEnv
  end.

(** The environments of a run over two files, all accepted. *)
Definition allAccepted (k : nat) : Env :=
  match k with
  | O => invoiceEnv
  | _ => hangingEnv
  end.

Definition onePdf : State :=
  mkState [pdfFile] false 0 "" [] "" None [] [].

Definition fortyPdfs : list File.t := repeat pdfFile 40.

Definition twoStored : State :=
  mkState [] false 0 "" [] "" None []
    [("a", QuotationDoc.mk None "u1" "a.txt" "text/plain" "2023-11-14T22:13:20.000Z" "x" None);
     ("b", QuotationDoc.mk None "u2" "b.txt" "text/plain" "2024-01-02T03:04:05.006Z" "y" None)].

(** ** The table of the page *)

(** [s.split(sep)] for a separator of one character: the segments between
    the occurrences of [sep] (one segment, [s] itself, when there is none). *)
Fixpoint splitOn (sep : ascii) (s : string) : list string :=
  match s with
  | EmptyString => [EmptyString]
  | String c s' =>
      if Ascii.eqb c sep then EmptyString :: splitOn sep s'
      else match splitOn sep s' with
           | seg :: segs => String c seg :: segs
           | [] => [String c EmptyString]
           end
  end.

Definition newline : ascii := "010"%char.

(** The last cell of a row: [q.extractedText.split("\n").slice(0, 2).join(" ")]
    when the text is not empty, the dash otherwise ([None]). *)
Definition rowSummary (q : QuotationDoc.t) : option string :=
  let txt := QuotationDoc.extractedText q in
  if truthy txt then Some (String.concat " " (firstn 2 (splitOn newline txt)))
  else None.

(** The selected files and the upload button are rendered when
    [files.length > 0]; the button is disabled while [processing]. *)
Definition uploadButtonShown (w : State) : bool := (0 <? List.length (files w))%nat.
Definition uploadButtonEnabled (w : State) : bool :=
  uploadButtonShown w && negb (processing w).

(** ** Vocabulary of the further statements *)

(** The characters of a string. *)
Definition chars (s : string) : list ascii := list_ascii_of_string s.

(** The notice one iteration leaves in the banner, if any: the [catch] of the
    upload runs after the [catch] of the extraction and overwrites it. *)
Definition noticeOf (file : File.t) (env : Env) : option string :=
  match uploadNotice file env with
  | Some m => Some m
  | None => extractionNotice file (extractText file env)
  end.

(** The last notice left by the iterations [i], [i+1], ... over [rest], or
    [acc] when none of them leaves one. *)
Fixpoint lastNotice (env : nat -> Env) (i : nat) (rest : list File.t)
  (acc : option string) : option string :=
  match rest with
  | [] => acc
  | file :: rest' =>
      lastNotice env (S i) rest'
        (match noticeOf file (env i) with
         | Some m => Some m
         | None => acc
         end)
  end.

(** The objects the iterations [i], [i+1], ... over [rest] put in storage:
    one for each fulfilled [uploadBytes]. *)
Fixpoint storedFrom (env : nat -> Env) (i : nat) (rest : list File.t)
  : list (string * File.t) :=
  match rest with
  | [] => []
  | file :: rest' =>
      (match uploadBytes (env i) with
       | Fulfilled _ => [(storageKey file (env i), file)]
       | Rejected _ => []
       end ++ storedFrom env (S i) rest')%list
  end.

(** The upload step of the environment succeeds. *)
Definition accepted (env : Env) : bool :=
  match uploadFailure env with
  | None => true
  | Some _ => false
  end.

(** The number of iterations [i], [i+1], ... over [rest] whose upload step
    succeeds. *)
Fixpoint acceptedCount (env : nat -> Env) (i : nat) (rest : list File.t) : nat :=
  match rest with
  | [] => 0
  | _ :: rest' => ((if accepted (env i) then 1 else 0) + acceptedCount env (S i) rest')%nat
  end.

(** The progress after file [i] of [n] lies between 1 and 100, does not
    exceed the progress after the next file, and is 100 after the last. *)
Definition progressOK (i n : nat) : bool :=
  (1 <=? percent i n) && (percent i n <=? 100)
  && (if (S i =? n)%nat then percent i n =? 100
      else percent i n <=? percent (S i) n).

(** ** More sample inputs *)

Definition emptyTypeFile : File.t := File.mk "README" "" 0.

(** The bytes are read in 9 s and converted in 9 s more. *)
Definition slowDocxEnv : Env :=
  {| recognize := Pending;
     arrayBuffer := Settles 9000 (Fulfilled []);
     extractRawText := fun _ => Settles 9000 (Fulfilled {| value := Some "Quotation 42" |});
     text := Pending;
     Date_now := 1700000000003;
     uploadBytes := Fulfilled tt;
     getDownloadURL := Fulfilled "https://storage.example/docx";
     toISOString := "2023-11-14T22:13:20.003Z";
     addDoc := Fulfilled "doc2" |}.

(** The OCR answers in time but finds no text. *)
Definition blankImageEnv : Env :=
  {| recognize := Settles 1200 (Fulfilled {| data_text := None |});
     arrayBuffer := Pending;
     extractRawText := fun _ => Pending;
     text := Pending;
     Date_now := 1700000000004;
     uploadBytes := Fulfilled tt;
     getDownloadURL := Fulfilled "https://storage.example/blank";
     toISOString := "2023-11-14T22:13:20.004Z";
     addDoc := Fulfilled "doc3" |}.

(** ** Vocabulary of the statements on storage *)

(** The promise was fulfilled. *)
Definition fulfilled {T} (o : Outcome T) : bool :=
  match o with
  | Fulfilled _ => true
  | Rejected _ => false
  end.

(** The files of a batch with their loop indices, from index [i]. *)
Definition indexedFrom (i : nat) (batch : list File.t) : list (nat * File.t) :=
  combine (seq i (List.length batch)) batch.

(** The object stored for the file at index [k]. *)
Definition objectOf (env : nat -> Env) (kf : nat * File.t) : string * File.t :=
  (storageKey (snd kf) (env (fst kf)), snd kf).


(** * Properties *)

(** Case analysis on the three backend calls of the upload step. *)
Ltac backend_cases env :=
  destruct (uploadBytes env) as [[]|?e1] eqn:?Eu;
  destruct (getDownloadURL env) as [?url|?e2] eqn:?Eg;
  destruct (addDoc env) as [?docId|?e3] eqn:?Ea.

(** ** The timeout race and the router *)

Lemma withTimeout_late {T} (work : Promise T) (ms : N) :
  timerFirst work ms -> withTimeout work ms = Settles ms (Rejected timedOut).
Proof.
  unfold withTimeout, Promise_race, rejectAfter, timedOut; simpl.
  destruct work as [t o|]; simpl; intros H; [|reflexivity].
  apply N.leb_gt in H. now rewrite H.
Qed.

Lemma withTimeout_in_time {T} (t : N) (o : Outcome T) (ms : N) :
  (t <= ms)%N -> withTimeout (Settles t o) ms = Settles t o.
Proof.
  unfold withTimeout, Promise_race, rejectAfter; simpl.
  intros H. apply N.leb_le in H. now rewrite H.
Qed.

Lemma withTimeout_settles {T} (work : Promise T) (ms : N) :
  exists t o, withTimeout work ms = Settles t o.
Proof.
  destruct work as [t o|].
  - destruct (N.le_gt_cases t ms) as [H|H].
    + exists t, o. now apply withTimeout_in_time.
    + exists ms, (Rejected timedOut). now apply withTimeout_late.
  - exists ms, (Rejected timedOut). now apply withTimeout_late.
Qed.

Lemma await_settles {A B} (p : Promise A) (k : A -> Promise B) :
  (exists t o, p = Settles t o) ->
  (forall v, exists t o, k v = Settles t o) ->
  exists t o, await p k = Settles t o.
Proof.
  intros (t & o & ->) Hk. destruct o as [v|err]; simpl.
  - destruct (Hk v) as (u & o' & ->). eauto.
  - eauto.
Qed.

Lemma resolve_settles {T} (v : T) : exists t o, resolve v = Settles t o.
Proof. unfold resolve; eauto. Qed.

(** The promise returned by [extractText] always settles: every engine call
    is raced against a timer. *)
Lemma extractText_settles (file : File.t) (env : Env) :
  exists t o, extractText file env = Settles t o.
Proof.
  unfold extractText.
  repeat match goal with
         | |- context [if ?b then _ else _] => destruct b
         end;
    repeat first
      [ apply resolve_settles
      | apply await_settles; [apply withTimeout_settles | intros ?] ].
Qed.

Lemma or_else_truthy (a : option string) (b : string) :
  truthy b = true -> truthy (or_else a b) = true.
Proof. destruct a as [[|c s]|]; simpl; auto. Qed.

(** ** One iteration, described field by field *)

Lemma iteration_spec (n i : nat) (file : File.t) (env : Env) (w : State) :
  exists w', iteration n i file env w = Some w'
             /\ IterationSpec n i file env w w'.
Proof.
  destruct (extractText_settles file env) as (t & o & Ex).
  unfold iteration, extractBlock, uploadBlock, uploadCatch. rewrite Ex.
  destruct o as [txt|err]; backend_cases env;
    eexists; (split; [reflexivity|]);
    constructor;
    unfold uploadNotice, uploadFailure, createdBy, storageKey;
    rewrite ?Ex, ?Eu, ?Eg, ?Ea; simpl; rewrite ?app_nil_r; reflexivity.
Qed.

(** ** The loop *)

Lemma loop_app (env : nat -> Env) (n : nat) (pre post : list File.t) :
  forall i w,
    loop env n i (pre ++ post) w
    = match loop env n i pre w with
      | Some w1 => loop env n (i + List.length pre) post w1
      | None => None
      end.
Proof.
  induction pre as [|file pre IH]; intros i w; simpl.
  - now rewrite Nat.add_0_r.
  - destruct (iteration n i file (env i) w) as [w1|]; [|reflexivity].
    rewrite IH. now rewrite Nat.add_succ_r.
Qed.

Lemma loop_spec (env : nat -> Env) (n : nat) (rest : list File.t) :
  forall i w, exists w', loop env n i rest w = Some w'
                         /\ LoopSpec env n i rest w w'.
Proof.
  induction rest as [|file rest IH]; intros i w.
  - exists w. split; [reflexivity|]. constructor; simpl; rewrite ?app_nil_r; reflexivity.
  - destruct (iteration_spec n i file (env i) w) as (w1 & E1 & S1).
    destruct (IH (S i) w1) as (w2 & E2 & S2).
    exists w2. split; [simpl; now rewrite E1|].
    destruct S1, S2.
    constructor; simpl; try congruence.
    + rewrite lp_progress0. destruct rest as [|f rest'].
      * rewrite it_progress0. f_equal. simpl. lia.
      * f_equal. simpl. lia.
    + rewrite lp_db0, it_db0. now rewrite app_assoc.
Qed.

(** ** The documents created *)

Lemma slice_length (s : string) (m : nat) :
  (String.length (slice s 0 m) <= m)%nat.
Proof.
  unfold slice. rewrite Nat.sub_0_r. revert s.
  induction m as [|m IH]; intros [|c s]; simpl; try lia.
  specialize (IH s). lia.
Qed.

Lemma slice_short (s : string) (m : nat) :
  (String.length s <= m)%nat -> slice s 0 m = s.
Proof.
  unfold slice. rewrite Nat.sub_0_r. revert s.
  induction m as [|m IH]; intros [|c s]; simpl; intros H; try reflexivity; try lia.
  f_equal. apply IH. lia.
Qed.

Lemma mkRecord_error (file : File.t) (env : Env) (url : string) (p : Promise string) :
  QuotationDoc.error (mkRecord file env url (textOf p) (errorMsgOf p)) = errorOf p.
Proof.
  destruct p as [t [txt|err]|]; simpl; try reflexivity.
  now rewrite or_else_truthy.
Qed.

Lemma createdBy_inv (file : File.t) (env : Env) (d : StoredDoc) :
  In d (createdBy file env) ->
  exists url docId,
    uploadBytes env = Fulfilled tt
    /\ getDownloadURL env = Fulfilled url
    /\ addDoc env = Fulfilled docId
    /\ d = (docId, mkRecord file env url (textOf (extractText file env))
                            (errorMsgOf (extractText file env))).
Proof.
  unfold createdBy.
  destruct (uploadBytes env) as [[]|e1]; [|contradiction].
  destruct (getDownloadURL env) as [url|e2]; [|contradiction].
  destruct (addDoc env) as [docId|e3]; [|contradiction].
  intros [<-|[]]. exists url, docId. auto.
Qed.

Lemma createdFrom_inv (env : nat -> Env) (rest : list File.t) :
  forall i d, In d (createdFrom env i rest) ->
              exists k file, nth_error rest k = Some file
                             /\ In d (createdBy file (env (i + k)%nat)).
Proof.
  induction rest as [|file rest IH]; intros i d; simpl; [contradiction|].
  rewrite in_app_iff. intros [H|H].
  - exists 0%nat, file. rewrite Nat.add_0_r. auto.
  - destruct (IH _ _ H) as (k & f & Hk & Hd).
    exists (S k), f. rewrite Nat.add_succ_r. auto.
Qed.

Lemma uploadFailure_iff (env : Env) :
  (exists err, uploadBytes env = Rejected err)
  \/ (exists err, getDownloadURL env = Rejected err)
  \/ (exists err, addDoc env = Rejected err)
  <-> exists err, uploadFailure env = Some err.
Proof.
  unfold uploadFailure.
  backend_cases env; split; intros H; eauto;
    repeat match goal with
           | H : _ \/ _ |- _ => destruct H
           | H : exists _, _ |- _ => destruct H
           end; try discriminate.
Qed.

Lemma uploadFailure_createdBy (env : Env) (file : File.t) (err : Thrown) :
  uploadFailure env = Some err -> createdBy file env = [].
Proof.
  unfold uploadFailure, createdBy.
  backend_cases env; try reflexivity; discriminate.
Qed.

(** ** C1 *)

(** C1. If the upload step of a file fails (the storage write, the URL
    resolution or the database insert is rejected), the iteration completes,
    the collection is left as it was (no record for this file, whatever the
    extraction gave), the banner shows "Upload failed: {filename}: {message}",
    and the loop goes on with the next file. *)
Theorem upload_failure_creates_no_record
  (env : nat -> Env) (n i : nat) (file : File.t) (rest : list File.t) (w : State) :
  (exists err, uploadBytes (env i) = Rejected err)
  \/ (exists err, getDownloadURL (env i) = Rejected err)
  \/ (exists err, addDoc (env i) = Rejected err) ->
  exists w' err,
    iteration n i file (env i) w = Some w'
    /\ db w' = db w
    /\ uploadFailure (env i) = Some err
    /\ error w' = Some ("Upload failed: " ++ File.name file ++ ": "
                        ++ or_else (message err) "Upload failed")
    /\ loop env n i (file :: rest) w = loop env n (S i) rest w'.
Proof.
  intros H. apply uploadFailure_iff in H. destruct H as (err & Hf).
  destruct (iteration_spec n i file (env i) w) as (w' & E & Sp).
  exists w', err. repeat split; auto.
  - rewrite (it_db _ _ _ _ _ _ Sp), (uploadFailure_createdBy _ file _ Hf).
    apply app_nil_r.
  - rewrite (it_error _ _ _ _ _ _ Sp). unfold uploadNotice. now rewrite Hf.
  - simpl. now rewrite E.
Qed.

Lemma upload_failure_creates_no_record_witness :
  exists w' err,
    iteration 2 1 txtFile refusingEnv initial = Some w'
    /\ db w' = db initial
    /\ uploadFailure refusingEnv = Some err
    /\ error w' = Some ("Upload failed: " ++ File.name txtFile ++ ": "
                        ++ or_else (message err) "Upload failed")
    /\ loop (fun _ => refusingEnv) 2 1 [txtFile] initial
       = loop (fun _ => refusingEnv) 2 2 [] w'.
Proof.
  apply (upload_failure_creates_no_record (fun _ => refusingEnv) 2 1 txtFile [] initial).
  right; right. exists (Error "permission-denied"). reflexivity.
Defined.

(** ** C2 *)

(** C2. If the extraction of a file fails, the upload step is run all the
    same: when it fails too, its failure is what the banner reports and no
    record is created; when it succeeds, one record is created, whose
    [error] is the failure reason (or "Extraction failed" when the thrown
    value carries no message) and whose [extractedText] is empty. *)
Theorem extraction_failure_still_records
  (n i : nat) (file : File.t) (env : Env) (w : State) (t : N) (err : Thrown) :
  extractText file env = Settles t (Rejected err) ->
  exists w',
    iteration n i file env w = Some w'
    /\ match uploadFailure env with
       | Some uerr =>
           db w' = db w
           /\ error w' = Some ("Upload failed: " ++ File.name file ++ ": "
                               ++ or_else (message uerr) "Upload failed")
       | None =>
           exists docId record,
             addDoc env = Fulfilled docId
             /\ db w' = (db w ++ [(docId, record)])%list
             /\ QuotationDoc.error record
                = Some (or_else (message err) "Extraction failed")
             /\ QuotationDoc.extractedText record = ""
             /\ getDownloadURL env = Fulfilled (QuotationDoc.fileUrl record)
             /\ QuotationDoc.filename record = File.name file
             /\ bucket w' = (bucket w ++ [(storageKey file env, file)])%list
       end.
Proof.
  intros Ex.
  destruct (iteration_spec n i file env w) as (w' & E & Sp).
  exists w'. split; [exact E|].
  destruct Sp as [_ _ _ _ _ _ Herr Hbucket Hdb].
  unfold uploadNotice in Herr. unfold createdBy in Hdb. rewrite Ex in Hdb.
  unfold uploadFailure in *.
  destruct (uploadBytes env) as [[]|e1];
    destruct (getDownloadURL env) as [url|e2];
    destruct (addDoc env) as [docId|e3];
    try (split; [rewrite Hdb; apply app_nil_r | exact Herr]).
  exists docId. eexists. repeat split; try eassumption; simpl; try reflexivity.
  now rewrite or_else_truthy.
Qed.

Lemma extraction_failure_still_records_witness :
  exists w',
    iteration 1 0 docxFile hangingEnv initial = Some w'
    /\ exists docId record,
         addDoc hangingEnv = Fulfilled docId
         /\ db w' = (db initial ++ [(docId, record)])%list
         /\ QuotationDoc.error record = Some "Extraction timed out"
         /\ QuotationDoc.extractedText record = ""
         /\ getDownloadURL hangingEnv = Fulfilled (QuotationDoc.fileUrl record)
         /\ QuotationDoc.filename record = File.name docxFile
         /\ bucket w' = (bucket initial ++ [(storageKey docxFile hangingEnv, docxFile)])%list.
Proof.
  apply (extraction_failure_still_records 1 0 docxFile hangingEnv initial 10000 timedOut).
  reflexivity.
Defined.

(** ** C3 *)

(** C3. Every document the loop adds to the collection has an
    [extractedText] of at most 600 characters: it is the first 600 characters
    of the text extracted from its own file (the whole text when that is
    shorter), and the empty string when the extraction failed. *)
Theorem summary_at_most_600
  (env : nat -> Env) (n i : nat) (rest : list File.t) (w : State) :
  exists w' created,
    loop env n i rest w = Some w'
    /\ db w' = (db w ++ created)%list
    /\ Forall
         (fun d : StoredDoc =>
            (String.length (QuotationDoc.extractedText (snd d)) <= 600)%nat
            /\ exists k file,
                nth_error rest k = Some file
                /\ let p := extractText file (env (i + k)%nat) in
                   QuotationDoc.extractedText (snd d) = String.substring 0 600 (textOf p)
                   /\ ((String.length (textOf p) <= 600)%nat ->
                       QuotationDoc.extractedText (snd d) = textOf p)
                   /\ (forall t err, p = Settles t (Rejected err) ->
                                     QuotationDoc.extractedText (snd d) = ""))
         created.
Proof.
  destruct (loop_spec env n rest i w) as (w' & E & Sp).
  exists w', (createdFrom env i rest). repeat split; [exact E | apply (lp_db _ _ _ _ _ _ Sp) |].
  apply Forall_forall. intros d Hd.
  destruct (createdFrom_inv _ _ _ _ Hd) as (k & file & Hk & Hin).
  destruct (createdBy_inv _ _ _ Hin) as (url & docId & _ & _ & _ & ->).
  simpl. split; [apply slice_length|].
  exists k, file. split; [exact Hk|]. repeat split.
  - intros Hlen. now apply slice_short.
  - intros t err ->. reflexivity.
Qed.

(** ** C4 *)

(** C4. A file whose declared media type is exactly "application/pdf" makes
    [extractText] return the placeholder "[PDF text extraction coming soon]"
    at once (settle time 0), whatever the file's other attributes and whatever
    the engines would answer: no timer is involved, and the result is never a
    rejection. *)
Theorem pdf_placeholder_immediately (file : File.t) (env : Env) :
  File.type file = "application/pdf" ->
  extractText file env = Settles 0 (Fulfilled "[PDF text extraction coming soon]").
Proof.
  intros H. unfold extractText. rewrite H. reflexivity.
Qed.

Lemma pdf_placeholder_immediately_witness :
  extractText pdfFile hangingEnv
  = Settles 0 (Fulfilled "[PDF text extraction coming soon]").
Proof. apply (pdf_placeholder_immediately pdfFile hangingEnv). reflexivity. Defined.

(** ** C5 *)

Lemma text_type_dispatch (ty : string) :
  startsWith ty "text/" = true ->
  startsWith ty "image/" = false
  /\ String.eqb ty pdfType = false /\ String.eqb ty docxType = false.
Proof.
  unfold startsWith. destruct ty as [|c ty]; [discriminate|].
  cbn [String.prefix].
  destruct (ascii_dec "t" c) as [<-|]; [|discriminate].
  intros _. repeat split; reflexivity.
Qed.

Lemma extractText_image (file : File.t) (env : Env) :
  startsWith (File.type file) "image/" = true ->
  extractText file env
  = await (withTimeout (recognize env) default_ms)
          (fun result => resolve (or_else (data_text result) "")).
Proof. intros H. unfold extractText. now rewrite H. Qed.

Lemma extractText_docx (file : File.t) (env : Env) :
  File.type file = docxType ->
  extractText file env
  = await (withTimeout (arrayBuffer env) default_ms)
          (fun buffer =>
             await (withTimeout (extractRawText env buffer) default_ms)
                   (fun result => resolve (or_else (value result) ""))).
Proof. intros H. unfold extractText. rewrite H. reflexivity. Qed.

Lemma extractText_text (file : File.t) (env : Env) :
  startsWith (File.type file) "text/" = true ->
  extractText file env
  = await (withTimeout (text env) default_ms) (fun txt => resolve txt).
Proof.
  intros H. unfold extractText.
  destruct (text_type_dispatch _ H) as (-> & -> & ->). now rewrite H.
Qed.

(** C5. The race of [withTimeout]: when the timer settles strictly before the
    work (or the work never settles) the result is a rejection with the
    message "Extraction timed out", at the timer's delay; when the work
    settles no later than the timer, its own fulfilment or rejection is the
    result.  This is what each of the four wrapped operations gives inside
    [extractText] (OCR, byte read, conversion, text decode).  The [catch] of
    the sequencer treats a rejection by its message only, the timer's like
    any other. *)
Theorem timeout_race_semantics :
  (forall (T : Type) (work : Promise T) (ms : N),
      timerFirst work ms ->
      withTimeout work ms = Settles ms (Rejected (Error "Extraction timed out")))
  /\ (forall (T : Type) (t : N) (o : Outcome T) (ms : N),
         (t <= ms)%N -> withTimeout (Settles t o) ms = Settles t o)
  /\ (forall file env,
         startsWith (File.type file) "image/" = true ->
         timerFirst (recognize env) default_ms ->
         extractText file env = Settles default_ms (Rejected timedOut))
  /\ (forall file env,
         File.type file = docxType ->
         timerFirst (arrayBuffer env) default_ms ->
         extractText file env = Settles default_ms (Rejected timedOut))
  /\ (forall file env t buffer,
         File.type file = docxType ->
         arrayBuffer env = Settles t (Fulfilled buffer) -> (t <= default_ms)%N ->
         timerFirst (extractRawText env buffer) default_ms ->
         extractText file env = Settles (t + default_ms) (Rejected timedOut))
  /\ (forall file env,
         startsWith (File.type file) "text/" = true ->
         timerFirst (text env) default_ms ->
         extractText file env = Settles default_ms (Rejected timedOut))
  /\ (forall file env t err,
         (startsWith (File.type file) "image/" = true
          /\ recognize env = Settles t (Rejected err))
         \/ (File.type file = docxType
             /\ arrayBuffer env = Settles t (Rejected err))
         \/ (startsWith (File.type file) "text/" = true
             /\ text env = Settles t (Rejected err)) ->
         (t <= default_ms)%N ->
         extractText file env = Settles t (Rejected err))
  /\ (forall file env t txt,
         startsWith (File.type file) "text/" = true ->
         text env = Settles t (Fulfilled txt) -> (t <= default_ms)%N ->
         extractText file env = Settles t (Fulfilled txt))
  /\ (forall file env w t err,
         extractText file env = Settles t (Rejected err) ->
         extractBlock file env w
         = Some ("", or_else (message err) "Extraction failed",
                 setError (Some ("Extraction failed: " ++ File.name file ++ ": "
                                 ++ or_else (message err) "Extraction failed")) w)).
Proof.
  split; [intros; now apply withTimeout_late|].
  split; [intros; now apply withTimeout_in_time|].
  split.
  { intros file env Hty Hlate. rewrite (extractText_image _ _ Hty).
    now rewrite (withTimeout_late _ _ Hlate). }
  split.
  { intros file env Hty Hlate. rewrite (extractText_docx _ _ Hty).
    now rewrite (withTimeout_late _ _ Hlate). }
  split.
  { intros file env t buffer Hty Hbuf Ht Hlate. rewrite (extractText_docx _ _ Hty).
    rewrite Hbuf, (withTimeout_in_time _ _ _ Ht). simpl.
    now rewrite (withTimeout_late _ _ Hlate). }
  split.
  { intros file env Hty Hlate. rewrite (extractText_text _ _ Hty).
    now rewrite (withTimeout_late _ _ Hlate). }
  split.
  { intros file env t err [(Hty & Hw)|[(Hty & Hw)|(Hty & Hw)]] Ht.
    - rewrite (extractText_image _ _ Hty), Hw. now rewrite (withTimeout_in_time _ _ _ Ht).
    - rewrite (extractText_docx _ _ Hty), Hw. now rewrite (withTimeout_in_time _ _ _ Ht).
    - rewrite (extractText_text _ _ Hty), Hw. now rewrite (withTimeout_in_time _ _ _ Ht). }
  split.
  { intros file env t txt Hty Hw Ht.
    rewrite (extractText_text _ _ Hty), Hw, (withTimeout_in_time _ _ _ Ht).
    simpl. now rewrite N.add_0_r. }
  intros file env w t err Ex. unfold extractBlock. now rewrite Ex.
Qed.

Lemma timeout_race_semantics_witness :
  withTimeout (@Pending string) 10000
  = Settles 10000 (Rejected (Error "Extraction timed out"))
  /\ withTimeout (Settles 5 (Fulfilled "hello")) 10000 = Settles 5 (Fulfilled "hello")
  /\ extractText docxFile hangingEnv = Settles default_ms (Rejected timedOut)
  /\ extractText txtFile refusingEnv = Settles 5 (Fulfilled "hello")
  /\ extractBlock docxFile hangingEnv initial
     = Some ("", "Extraction timed out",
             setError (Some "Extraction failed: huge.docx: Extraction timed out") initial).
Proof.
  destruct timeout_race_semantics as (H1 & H2 & _ & H4 & _ & _ & _ & H8 & H9).
  split; [apply (H1 string Pending 10000%N); exact I|].
  split; [apply (H2 string 5%N (Fulfilled "hello") 10000%N); vm_compute; discriminate|].
  split; [apply (H4 docxFile hangingEnv); [reflexivity | exact I]|].
  split; [apply (H8 txtFile refusingEnv 5%N "hello");
          [reflexivity | reflexivity | vm_compute; discriminate]|].
  apply (H9 docxFile hangingEnv initial 10000%N timedOut). reflexivity.
Defined.

(** ** C10 *)

(** C10. In a batch [pre ++ file :: post], the iteration that processes
    [file] starts from fresh locals: the document it adds (if any) carries
    the first 600 characters of the text of [file]'s own extraction and the
    error of [file]'s own extraction, nothing of the files before it; the
    same document would be added from any other state. *)
Theorem record_reflects_own_extraction
  (env : nat -> Env) (n : nat) (pre : list File.t) (file : File.t)
  (post : list File.t) (w : State) :
  let i := List.length pre in
  let p := extractText file (env i) in
  exists w1 w2 created,
    loop env n 0 pre w = Some w1
    /\ iteration n i file (env i) w1 = Some w2
    /\ loop env n 0 (pre ++ file :: post) w = loop env n (S i) post w2
    /\ db w2 = (db w1 ++ created)%list
    /\ Forall (fun d : StoredDoc =>
                 QuotationDoc.extractedText (snd d) = slice (textOf p) 0 600
                 /\ QuotationDoc.error (snd d) = errorOf p
                 /\ QuotationDoc.filename (snd d) = File.name file) created
    /\ forall n' i' w0, exists w0',
        iteration n' i' file (env i) w0 = Some w0'
        /\ db w0' = (db w0 ++ created)%list.
Proof.
  intros i p.
  destruct (loop_spec env n pre 0 w) as (w1 & E1 & _).
  destruct (iteration_spec n i file (env i) w1) as (w2 & E2 & S2).
  exists w1, w2, (createdBy file (env i)).
  split; [exact E1|]. split; [exact E2|]. split.
  { rewrite loop_app, E1. simpl. fold i. now rewrite E2. }
  split; [apply (it_db _ _ _ _ _ _ S2)|]. split.
  - apply Forall_forall. intros d Hd.
    destruct (createdBy_inv _ _ _ Hd) as (url & docId & _ & _ & _ & ->).
    simpl snd. split; [reflexivity|]. split; [apply mkRecord_error | reflexivity].
  - intros n' i' w0.
    destruct (iteration_spec n' i' file (env i) w0) as (w0' & E0 & S0).
    exists w0'. split; [exact E0 | apply (it_db _ _ _ _ _ _ S0)].
Qed.

(** ** C6 *)

Lemma triangle_spec (f : nat -> nat -> bool) (bound : nat) :
  triangle f bound = true ->
  forall i n, (i < n)%nat -> (n <= bound)%nat -> f i n = true.
Proof.
  unfold triangle. intros H i n Hi Hn. rewrite forallb_forall in H.
  assert (Hin : In n (seq 1 bound)) by (apply in_seq; lia).
  specialize (H n Hin). rewrite forallb_forall in H.
  apply H, in_seq. lia.
Qed.

Lemma agrees_up_to_39 : triangle agreesAt 39 = true.
Proof. vm_compute. reflexivity. Qed.

Lemma percent_exact_small (i n : nat) :
  (i < n)%nat -> (n <= 39)%nat -> percent i n = spec_progress i n.
Proof.
  intros Hi Hn. apply Z.eqb_eq.
  apply (triangle_spec agreesAt 39 agrees_up_to_39 i n Hi Hn).
Qed.

Lemma characterised_up_to_200 : triangle characterisedAt 200 = true.
Proof. vm_compute. reflexivity. Qed.

Lemma percent_characterised (i n : nat) :
  (i < n)%nat -> (n <= 200)%nat ->
  percent i n = spec_progress i n - (if fallsShort i n then 1 else 0).
Proof.
  intros Hi Hn. apply Z.eqb_eq.
  apply (triangle_spec characterisedAt 200 characterised_up_to_200 i n Hi Hn).
Qed.

(** The smallest batch in which the two differ. *)
Example percent_40_22 :
  percent 22 40 = 57 /\ spec_progress 22 40 = 58
  /\ spec_progress_half_even 22 40 = 58.
Proof. vm_compute. auto. Qed.

Lemma loop_prefix_progress (env : nat -> Env) (n : nat) (files : list File.t)
  (w : State) (i : nat) :
  (i < List.length files)%nat ->
  exists w', loop env n 0 (firstn (S i) files) w = Some w'
             /\ progress w' = percent i n.
Proof.
  intros Hi.
  destruct (loop_spec env n (firstn (S i) files) 0 w) as (w' & E & Sp).
  exists w'. split; [exact E|].
  rewrite (lp_progress _ _ _ _ _ _ Sp).
  assert (Hlen : List.length (firstn (S i) files) = S i)
    by (apply firstn_length_le; lia).
  destruct (firstn (S i) files) as [|f l] eqn:Ef; [discriminate|].
  rewrite Hlen. f_equal. lia.
Qed.

(** The claim as the specification states it fails: in a batch of 40 files
    the progress after the file at index 22 is 57, where the exact quotient
    2300/40 = 57.5 rounds to 58 (a tie going up, or to the even neighbour).
    The double nearest to 23/40 lies below it, and so does its product with
    100. *)
Lemma progress_not_exact_round :
  ~ (forall (env : nat -> Env) (files : list File.t) (w w' : State) (i : nat),
        (1 <= List.length files)%nat ->
        (i < List.length files)%nat ->
        loop env (List.length files) 0 (firstn (S i) files) w = Some w' ->
        progress w' = spec_progress i (List.length files)).
Proof.
  intros H.
  destruct (loop_prefix_progress (fun _ => hangingEnv) 40 fortyPdfs initial 22)
    as (w' & E & P); [vm_compute; lia|].
  specialize (H (fun _ => hangingEnv) fortyPdfs initial w' 22%nat).
  change (List.length fortyPdfs) with 40%nat in H.
  assert (H' := H ltac:(lia) ltac:(lia) E).
  rewrite P in H'. vm_compute in H'. discriminate.
Qed.

(** C6 (amended). For every batch of n >= 1 files and whatever the outcome of
    each file, the sequencer finishes the file at index i and the progress is
    then the double-precision value Math.round(((i+1)/n)*100); this is
    round(100 x (i+1)/n) for every batch of at most 39 files, and for batches
    of up to 200 files it is one less exactly when (i+1)/n is 23/40, 29/200,
    57/200 or 113/200. *)
Theorem progress_after_file
  (env : nat -> Env) (files : list File.t) (w : State) (i : nat) :
  (i < List.length files)%nat ->
  exists w',
    loop env (List.length files) 0 (firstn (S i) files) w = Some w'
    /\ progress w' = percent i (List.length files)
    /\ ((List.length files <= 39)%nat ->
        progress w' = spec_progress i (List.length files))
    /\ ((List.length files <= 200)%nat ->
        progress w' = spec_progress i (List.length files)
                      - (if fallsShort i (List.length files) then 1 else 0)).
Proof.
  intros Hi.
  destruct (loop_prefix_progress env (List.length files) files w i Hi) as (w' & E & P).
  exists w'. repeat split; auto.
  - intros Hn. rewrite P. now apply percent_exact_small.
  - intros Hn. rewrite P. now apply percent_characterised.
Qed.

Lemma progress_after_file_witness :
  exists w',
    loop (fun _ => refusingEnv) 3 0 (firstn 2 [pdfFile; txtFile; docxFile]) initial
    = Some w'
    /\ progress w' = percent 1 3
    /\ ((3 <= 39)%nat -> progress w' = spec_progress 1 3)
    /\ ((3 <= 200)%nat ->
        progress w' = spec_progress 1 3 - (if fallsShort 1 3 then 1 else 0)).
Proof.
  apply (progress_after_file (fun _ => refusingEnv) [pdfFile; txtFile; docxFile] initial 1).
  simpl. lia.
Defined.

(** ** C7 and C9: the end of a run *)

Lemma handleUpload_spec (localeCompare : string -> string -> Z)
  (env : nat -> Env) (getDocs : Outcome unit) (w : State) :
  exists wl w',
    loop env (List.length (files w)) 0 (files w)
         (setError None (setProgress 0 (setProcessing true w))) = Some wl
    /\ handleUpload localeCompare env getDocs w = Some (w', propagated getDocs)
    /\ processing w' = false
    /\ step w' = ""
    /\ files w' = []
    /\ progress w' = progress wl
    /\ search w' = search w
    /\ db w' = (db w ++ createdFrom env 0 (files w))%list
    /\ quotations w'
       = match getDocs with
         | Fulfilled _ =>
             Array_sort (byUploadedDesc localeCompare) (map withId (db w'))
         | Rejected _ => quotations w
         end.
Proof.
  unfold handleUpload.
  destruct (loop_spec env (List.length (files w)) (files w) 0
              (setError None (setProgress 0 (setProcessing true w))))
    as (wl & E & Sp).
  change (files (setError None (setProgress 0 (setProcessing true w))))
    with (files w) in *.
  rewrite E. destruct Sp as [_ _ _ Hq Hs Hdb]. simpl in Hq, Hs, Hdb.
  exists wl. unfold fetchQuotations.
  destruct getDocs as [[]|err]; eexists; (split; [reflexivity|]);
    (split; [reflexivity|]); simpl; repeat split; auto.
Qed.

Lemma loop_final_progress (env : nat -> Env) (batch : list File.t) (w wl : State) :
  loop env (List.length batch) 0 batch w = Some wl ->
  progress wl = match batch with
                | [] => progress w
                | _ :: _ => percent (List.length batch - 1) (List.length batch)
                end.
Proof.
  intros E.
  destruct (loop_spec env (List.length batch) batch 0 w) as (w' & E' & Sp).
  rewrite E in E'. injection E' as <-.
  apply (lp_progress _ _ _ _ _ _ Sp).
Qed.

(** The claim as the specification states it fails: after a run over one
    file the progress value is 100, not cleared. *)
Lemma progress_not_cleared :
  ~ (forall (localeCompare : string -> string -> Z) (env : nat -> Env)
            (getDocs : Outcome unit) (w w' : State) (o : Outcome unit),
        handleUpload localeCompare env getDocs w = Some (w', o) ->
        progress w' = 0 /\ step w' = "" /\ files w' = []).
Proof.
  intros H.
  destruct (H codeUnitCompare (fun _ => hangingEnv) (Fulfilled tt) onePdf _ _ eq_refl)
    as (P & _).
  vm_compute in P. discriminate.
Qed.

(** C7 (amended). After the loop of a run, whether or not every item
    succeeded, the processing flag, the step label and the selection are
    cleared; the progress value is left as the loop set it (the percentage of
    the last file, or the 0 of the start for an empty batch; it is reset only
    when the next run starts, and the progress line is no longer rendered).
    Then the record set is fetched from the
    collection and, when the fetch is fulfilled, its sorted copy replaces the
    displayed list (when it is rejected the list is left as it was). *)
Theorem state_after_run (localeCompare : string -> string -> Z)
  (env : nat -> Env) (getDocs : Outcome unit) (w : State) :
  exists w',
    handleUpload localeCompare env getDocs w = Some (w', propagated getDocs)
    /\ processing w' = false
    /\ step w' = ""
    /\ files w' = []
    /\ progress w' = match files w with
                     | [] => 0
                     | _ :: _ => percent (List.length (files w) - 1)
                                         (List.length (files w))
                     end
    /\ progressLine w' = None
    /\ quotations w'
       = match getDocs with
         | Fulfilled _ =>
             Array_sort (byUploadedDesc localeCompare) (map withId (db w'))
         | Rejected _ => quotations w
         end.
Proof.
  destruct (handleUpload_spec localeCompare env getDocs w)
    as (wl & w' & El & E & Hp & Hs & Hf & Hpr & _ & _ & Hq).
  exists w'. repeat split; auto.
  - rewrite Hpr, (loop_final_progress _ _ _ _ El). reflexivity.
  - unfold progressLine. now rewrite Hp.
Qed.




(** ** C8: the displayed order *)

Lemma string_le_trans (a b c : string) :
  String.compare a b <> Gt -> String.compare b c <> Gt -> String.compare a c <> Gt.
Proof.
  intros Hab Hbc.
  destruct (String.compare a b) eqn:Eab; [| |congruence].
  - apply String_as_OT.cmp_eq in Eab. now subst.
  - destruct (String.compare b c) eqn:Ebc; [| |congruence].
    + apply String_as_OT.cmp_eq in Ebc. subst. now rewrite Eab.
    + apply String_as_OT.cmp_lt in Eab, Ebc.
      pose proof (String_as_OT.lt_trans _ _ _ Eab Ebc) as Hac.
      apply String_as_OT.cmp_lt in Hac. unfold String_as_OT.cmp in Hac.
      now rewrite Hac.
Qed.

Lemma notOlder_trans (a b c : QuotationDoc.t) :
  notOlder a b -> notOlder b c -> notOlder a c.
Proof. unfold notOlder. intros Hab Hbc. eapply string_le_trans; eauto. Qed.

Section SortCorrect.
Context {A : Type} (comparefn : A -> A -> Z) (P : A -> Prop) (R : A -> A -> Prop).
Hypothesis keeps : forall a b, P a -> P b -> comparefn a b <= 0 -> R a b.
Hypothesis swaps : forall a b, P a -> P b -> 0 < comparefn a b -> R b a.
Hypothesis R_trans : forall a b c, R a b -> R b c -> R a c.

Lemma sortInsert_perm (a : A) (l : list A) :
  Permutation (a :: l) (sortInsert comparefn a l).
Proof.
  induction l as [|b l IH]; simpl; [reflexivity|].
  destruct (comparefn a b <=? 0); [reflexivity|].
  rewrite perm_swap. now apply perm_skip.
Qed.

Lemma Array_sort_perm (l : list A) : Permutation l (Array_sort comparefn l).
Proof.
  induction l as [|a l IH]; simpl; [reflexivity|].
  rewrite <- sortInsert_perm. now apply perm_skip.
Qed.

Lemma sortInsert_sorted (a : A) (l : list A) :
  P a -> Forall P l -> StronglySorted R l ->
  StronglySorted R (sortInsert comparefn a l).
Proof.
  intros Pa. induction l as [|b l IH]; intros Pl Sl; simpl.
  - repeat constructor.
  - inversion Pl as [|? ? Pb Pl']; subst.
    inversion Sl as [|? ? Sl' Hb]; subst.
    destruct (comparefn a b <=? 0) eqn:E.
    + apply Z.leb_le in E. pose proof (keeps a b Pa Pb E) as Rab.
      constructor; [exact Sl|]. constructor; [exact Rab|].
      eapply Forall_impl; [|exact Hb]. intros c Rbc. eapply R_trans; eauto.
    + apply Z.leb_gt in E. pose proof (swaps a b Pa Pb E) as Rba.
      constructor; [now apply IH|].
      eapply Permutation_Forall; [apply sortInsert_perm|].
      constructor; assumption.
Qed.

Lemma Array_sort_sorted (l : list A) :
  Forall P l -> StronglySorted R (Array_sort comparefn l).
Proof.
  induction l as [|a l IH]; intros Pl; simpl; [constructor|].
  inversion Pl as [|? ? Pa Pl']; subst.
  apply sortInsert_sorted; auto.
  eapply Permutation_Forall; [apply Array_sort_perm | exact Pl'].
Qed.
End SortCorrect.

Lemma codeUnitCompare_agrees : agreesOnISO codeUnitCompare.
Proof.
  intros a b _ _. unfold codeUnitCompare.
  destruct (String.compare a b); reflexivity.
Qed.

Lemma withId_uploaded (d : StoredDoc) :
  QuotationDoc.uploaded (withId d) = QuotationDoc.uploaded (snd d).
Proof. destruct d as [docId data]. reflexivity. Qed.

Lemma createdFrom_stamps (env : nat -> Env) (rest : list File.t) (i : nat) :
  (forall k, isISOString (toISOString (env k)) = true) ->
  Forall hasISOStamp (createdFrom env i rest).
Proof.
  intros Hclock. apply Forall_forall. intros d Hd.
  destruct (createdFrom_inv _ _ _ _ Hd) as (k & file & _ & Hin).
  destruct (createdBy_inv _ _ _ Hin) as (url & docId & _ & _ & _ & ->).
  apply Hclock.
Qed.

Section DisplayOrder.
Variable localeCompare : string -> string -> Z.
Hypothesis agrees : agreesOnISO localeCompare.

Lemma byUploadedDesc_keeps (a b : QuotationDoc.t) :
  isoDoc a -> isoDoc b -> byUploadedDesc localeCompare a b <= 0 -> notOlder a b.
Proof.
  unfold isoDoc, byUploadedDesc, notOlder. intros Ia Ib Hle.
  rewrite <- (agrees _ _ Ib Ia). intros Hgt. apply Z.compare_gt_iff in Hgt. lia.
Qed.

Lemma byUploadedDesc_swaps (a b : QuotationDoc.t) :
  isoDoc a -> isoDoc b -> 0 < byUploadedDesc localeCompare a b -> notOlder b a.
Proof.
  unfold isoDoc, byUploadedDesc, notOlder. intros Ia Ib Hlt.
  apply Z.compare_gt_iff in Hlt. rewrite (agrees _ _ Ib Ia) in Hlt.
  rewrite String.compare_antisym, Hlt. discriminate.
Qed.

Lemma sorted_display (docs : list StoredDoc) :
  Forall hasISOStamp docs ->
  StronglySorted notOlder (Array_sort (byUploadedDesc localeCompare) (map withId docs))
  /\ Permutation (map withId docs)
                 (Array_sort (byUploadedDesc localeCompare) (map withId docs)).
Proof.
  intros Hiso. split; [|apply Array_sort_perm].
  apply (Array_sort_sorted _ isoDoc notOlder
           byUploadedDesc_keeps byUploadedDesc_swaps notOlder_trans).
  apply Forall_map. eapply Forall_impl; [|exact Hiso].
  intros d Hd. unfold isoDoc. now rewrite withId_uploaded.
Qed.
End DisplayOrder.

(** C8. On a host whose [localeCompare] orders ISO timestamps as the
    lexicographic order of strings does, and with a collection whose
    documents carry ISO timestamps, every fulfilled fetch (the one at startup
    and the one that ends a run, the clock giving ISO timestamps) sets a
    displayed list that is a rearrangement of the collection in which every
    document's [uploaded] is lexicographically not smaller than that of any
    document after it: most recent first. *)
Theorem refetch_sorted_desc (localeCompare : string -> string -> Z) (w : State) :
  agreesOnISO localeCompare ->
  Forall hasISOStamp (db w) ->
  (exists w',
      fetchQuotations localeCompare (Fulfilled tt) w = (w', Fulfilled tt)
      /\ StronglySorted notOlder (quotations w')
      /\ Permutation (map withId (db w)) (quotations w'))
  /\ (forall env : nat -> Env,
         (forall k, isISOString (toISOString (env k)) = true) ->
         exists w',
           handleUpload localeCompare env (Fulfilled tt) w = Some (w', Fulfilled tt)
           /\ StronglySorted notOlder (quotations w')
           /\ Permutation (map withId (db w')) (quotations w')).
Proof.
  intros Hagree Hiso. split.
  - eexists. split; [reflexivity|]. simpl.
    now apply sorted_display.
  - intros env Hclock.
    destruct (handleUpload_spec localeCompare env (Fulfilled tt) w)
      as (wl & w' & _ & E & _ & _ & _ & _ & _ & Hdb & Hq).
    exists w'. split; [exact E|]. rewrite Hq.
    apply sorted_display; [exact Hagree|].
    rewrite Hdb. apply Forall_app. split; [exact Hiso|].
    now apply createdFrom_stamps.
Qed.

Lemma refetch_sorted_desc_witness :
  (exists w',
      fetchQuotations codeUnitCompare (Fulfilled tt) twoStored = (w', Fulfilled tt)
      /\ StronglySorted notOlder (quotations w')
      /\ Permutation (map withId (db twoStored)) (quotations w'))
  /\ (forall env : nat -> Env,
         (forall k, isISOString (toISOString (env k)) = true) ->
         exists w',
           handleUpload codeUnitCompare env (Fulfilled tt) twoStored
           = Some (w', Fulfilled tt)
           /\ StronglySorted notOlder (quotations w')
           /\ Permutation (map withId (db w')) (quotations w')).
Proof.
  apply (refetch_sorted_desc codeUnitCompare twoStored).
  - exact codeUnitCompare_agrees.
  - repeat constructor.
Defined.

(** ** The scenarios of the specification, run on the embedding *)

Example unsupported_type (env : Env) :
  extractText zipFile env = Settles 0 (Fulfilled "[Unsupported file type]").
Proof. reflexivity. Qed.

Example scenario_image_then_pdf :
  option_map (fun r => map (fun d => QuotationDoc.extractedText (snd d)) (db (fst r)))
             (handleUpload codeUnitCompare allAccepted (Fulfilled tt)
                (handleFilesChange (Some [pngFile; pdfFile]) initial))
  = Some ["Invoice #1"; "[PDF text extraction coming soon]"].
Proof. vm_compute. reflexivity. Qed.

Example scenario_docx_times_out :
  option_map (fun r => map (fun d => (QuotationDoc.error (snd d),
                                      QuotationDoc.extractedText (snd d)))
                           (db (fst r)))
             (handleUpload codeUnitCompare (fun _ => hangingEnv) (Fulfilled tt)
                (handleFilesChange (Some [docxFile]) initial))
  = Some [(Some "Extraction timed out", "")].
Proof. vm_compute. reflexivity. Qed.

Example scenario_second_upload_fails :
  option_map (fun r => (map (fun d => QuotationDoc.filename (snd d)) (db (fst r)),
                        error (fst r), progress (fst r), files (fst r)))
             (handleUpload codeUnitCompare secondRefused (Fulfilled tt)
                (handleFilesChange (Some [pngFile; txtFile]) initial))
  = Some (["image.png"], Some "Upload failed: b.txt: permission-denied", 100, []).
Proof. vm_compute. reflexivity. Qed.

Example scenario_display_order :
  map QuotationDoc.filename
      (quotations (fst (fetchQuotations codeUnitCompare (Fulfilled tt) twoStored)))
  = ["b.txt"; "a.txt"].
Proof. vm_compute. reflexivity. Qed.

(** * Further properties of the router *)

Lemma withTimeout_bound {T} (work : Promise T) (ms t : N) (o : Outcome T) :
  withTimeout work ms = Settles t o -> (t <= ms)%N.
Proof.
  destruct work as [u o'|].
  - destruct (N.le_gt_cases u ms) as [H|H].
    + rewrite (withTimeout_in_time _ _ _ H). intros E. injection E as <- _. exact H.
    + rewrite (withTimeout_late (Settles u o') ms H). intros E. injection E as <- _. lia.
  - rewrite (withTimeout_late Pending ms I). intros E. injection E as <- _. lia.
Qed.

Lemma await_resolve_bound {A B} (p : Promise A) (f : A -> B) (ms : N) :
  (forall t o, p = Settles t o -> (t <= ms)%N) ->
  (exists t o, p = Settles t o) ->
  exists t o, await p (fun x => resolve (f x)) = Settles t o /\ (t <= ms)%N.
Proof.
  intros Hb (t & o & E). specialize (Hb t o E). subst p.
  destruct o as [v|err]; simpl; eexists; eexists; (split; [reflexivity|]); lia.
Qed.

(** X1. The promise of [extractText] settles for every file, whatever the
    engines do, within 20 s of its creation, and within 10 s for every type
    but the Word one (whose byte read and conversion have a timer each). *)
Theorem extract_time_bound (file : File.t) (env : Env) :
  exists t o,
    extractText file env = Settles t o
    /\ (t <= 2 * default_ms)%N
    /\ (File.type file <> docxType -> (t <= default_ms)%N).
Proof.
  unfold extractText.
  destruct (startsWith (File.type file) "image/").
  { destruct (await_resolve_bound (withTimeout (recognize env) default_ms)
                (fun r => or_else (data_text r) "") default_ms)
      as (t & o & E & Hb);
      [intros ? ?; apply withTimeout_bound | apply withTimeout_settles|].
    exists t, o. repeat split; auto. unfold default_ms in *. lia. }
  destruct (String.eqb (File.type file) pdfType).
  { exists 0%N, (Fulfilled "[PDF text extraction coming soon]").
    repeat split; intros; unfold default_ms; lia. }
  destruct (String.eqb_spec (File.type file) docxType) as [Hd|Hd].
  { destruct (withTimeout_settles (arrayBuffer env) default_ms) as (t1 & o1 & E1).
    pose proof (withTimeout_bound _ _ _ _ E1) as B1. rewrite E1.
    destruct o1 as [buffer|err]; simpl.
    - destruct (await_resolve_bound
                  (withTimeout (extractRawText env buffer) default_ms)
                  (fun r => or_else (value r) "") default_ms)
        as (t2 & o2 & E2 & B2);
        [intros ? ?; apply withTimeout_bound | apply withTimeout_settles|].
      rewrite E2. exists (t1 + t2)%N, o2. unfold default_ms in *.
      repeat split; [lia | contradiction].
    - exists t1, (Rejected err). unfold default_ms in *.
      repeat split; [lia | contradiction]. }
  destruct (startsWith (File.type file) "text/").
  { destruct (await_resolve_bound (withTimeout (text env) default_ms)
                (fun txt => txt) default_ms)
      as (t & o & E & Hb);
      [intros ? ?; apply withTimeout_bound | apply withTimeout_settles|].
    exists t, o. repeat split; auto. unfold default_ms in *. lia. }
  exists 0%N, (Fulfilled "[Unsupported file type]").
  repeat split; intros; unfold default_ms; lia.
Qed.

(** X2. A file whose type is none of the four handled ones (the empty type
    of a file the browser could not classify included) gets the text
    "[Unsupported file type]" at once; no engine is called and the result is
    never a rejection. *)
Theorem unsupported_type_placeholder (file : File.t) (env : Env) :
  startsWith (File.type file) "image/" = false ->
  File.type file <> pdfType ->
  File.type file <> docxType ->
  startsWith (File.type file) "text/" = false ->
  extractText file env = Settles 0 (Fulfilled "[Unsupported file type]").
Proof.
  intros Hi Hp Hd Ht. unfold extractText. rewrite Hi, Ht.
  apply String.eqb_neq in Hp, Hd. now rewrite Hp, Hd.
Qed.

Lemma unsupported_type_placeholder_witness :
  extractText emptyTypeFile hangingEnv
  = Settles 0 (Fulfilled "[Unsupported file type]").
Proof.
  apply (unsupported_type_placeholder emptyTypeFile hangingEnv);
    first [reflexivity | discriminate].
Defined.

(** X3. For an image whose recognition is fulfilled within the delay, the
    extracted text is the recognized text, and the empty string when the
    engine reports no text (an absent or empty [data.text]); it is available
    when the recognition settles. *)
Theorem image_text_or_empty (file : File.t) (env : Env) (t : N) (r : OcrResult) :
  startsWith (File.type file) "image/" = true ->
  recognize env = Settles t (Fulfilled r) ->
  (t <= default_ms)%N ->
  extractText file env
  = Settles t (Fulfilled match data_text r with
                         | Some txt => txt
                         | None => ""
                         end).
Proof.
  intros Hi Hr Ht. rewrite (extractText_image _ _ Hi), Hr.
  rewrite (withTimeout_in_time _ _ _ Ht). simpl. rewrite N.add_0_r.
  destruct (data_text r) as [[|c s]|]; reflexivity.
Qed.

Lemma image_text_or_empty_witness :
  extractText pngFile blankImageEnv = Settles 1200 (Fulfilled "").
Proof.
  apply (image_text_or_empty pngFile blankImageEnv 1200 {| data_text := None |});
    [reflexivity | reflexivity | vm_compute; discriminate].
Defined.

(** X4. For a Word document the two stages have a timer each: when the bytes
    are read within the delay and the conversion then settles within the
    delay, the result is that of the conversion (its text, the empty string
    for an absent one, or its own failure) and it comes after the sum of the
    two durations, which may exceed the delay of one timer. *)
Theorem docx_two_stages (file : File.t) (env : Env) (t1 t2 : N)
  (buffer : list Byte.byte) (o : Outcome RawText) :
  File.type file = docxType ->
  arrayBuffer env = Settles t1 (Fulfilled buffer) ->
  (t1 <= default_ms)%N ->
  extractRawText env buffer = Settles t2 o ->
  (t2 <= default_ms)%N ->
  extractText file env
  = Settles (t1 + t2)
      match o with
      | Fulfilled r => Fulfilled match value r with
                                 | Some txt => txt
                                 | None => ""
                                 end
      | Rejected err => Rejected err
      end.
Proof.
  intros Hd Hb H1 Hc H2. rewrite (extractText_docx _ _ Hd), Hb.
  rewrite (withTimeout_in_time _ _ _ H1). simpl.
  rewrite Hc, (withTimeout_in_time _ _ _ H2).
  destruct o as [r|err]; simpl; [|reflexivity].
  rewrite N.add_0_r. destruct (value r) as [[|c s]|]; reflexivity.
Qed.

Lemma docx_two_stages_witness :
  extractText docxFile slowDocxEnv = Settles 18000 (Fulfilled "Quotation 42").
Proof.
  apply (docx_two_stages docxFile slowDocxEnv 9000 9000 []
           (Fulfilled {| value := Some "Quotation 42" |}));
    first [reflexivity | vm_compute; discriminate].
Defined.

(** * The storage key *)

Lemma chars_append (a b : string) : chars (a ++ b) = (chars a ++ chars b)%list.
Proof. induction a as [|c a IH]; simpl; [reflexivity | now rewrite IH]. Qed.

Lemma digits_no_underscore (d : Decimal.uint) :
  ~ In "_"%char (chars (NilEmpty.string_of_uint d)).
Proof.
  induction d; simpl; [intros [] | ..]; intros [H|H]; try discriminate; auto.
Qed.

Lemma decimal_no_underscore (n : N) : ~ In "_"%char (chars (decimal n)).
Proof.
  unfold decimal, NilZero.string_of_uint.
  destruct (N.to_uint n) eqn:E; try (rewrite <- E; apply digits_no_underscore).
  simpl. intros [H|[]]. discriminate.
Qed.

Lemma decimal_inj (n m : N) : decimal n = decimal m -> n = m.
Proof.
  unfold decimal. intros H.
  assert (Hnil : forall k, N.to_uint k <> Decimal.Nil).
  { intros k E. pose proof (DecimalN.Unsigned.of_to k) as Hk. rewrite E in Hk.
    simpl in Hk. subst k. discriminate. }
  apply DecimalN.Unsigned.to_uint_inj.
  pose proof (NilZero.usu _ (Hnil n)) as Hn.
  pose proof (NilZero.usu _ (Hnil m)) as Hm.
  rewrite H in Hn. congruence.
Qed.

Lemma last_underscore_splits (a a' d d' : string) :
  ~ In "_"%char (chars d) -> ~ In "_"%char (chars d') ->
  a ++ "_" ++ d = a' ++ "_" ++ d' -> a = a' /\ d = d'.
Proof.
  intros Hd Hd'. revert a'.
  induction a as [|c a IH]; intros [|c' a']; simpl; intros E.
  - injection E as E. auto.
  - injection E as <- E. exfalso. apply Hd. rewrite E, chars_append.
    apply in_or_app. right. now left.
  - injection E as -> E. exfalso. apply Hd'. rewrite <- E, chars_append.
    apply in_or_app. right. now left.
  - injection E as -> E. destruct (IH _ E) as [-> ->]. auto.
Qed.

(** X5. The storage key "quotations/{name}_{Date.now()}" determines the file
    name and the millisecond: two uploads get the same key exactly when they
    have the same file name and the same clock reading. *)
Theorem storageKey_collision (file file' : File.t) (env env' : Env) :
  storageKey file env = storageKey file' env'
  <-> File.name file = File.name file' /\ Date_now env = Date_now env'.
Proof.
  unfold storageKey. split.
  - intros E. simpl in E.
    repeat match type of E with String _ _ = String _ _ => injection E as E end.
    destruct (last_underscore_splits _ _ _ _
                (decimal_no_underscore _) (decimal_no_underscore _) E) as [Hn Hd].
    split; [exact Hn | now apply decimal_inj].
  - intros [-> ->]. reflexivity.
Qed.

(** * Further properties of a run *)

Lemma loop_error_bucket (env : nat -> Env) (n : nat) (rest : list File.t) :
  forall i w, exists w',
    loop env n i rest w = Some w'
    /\ error w' = lastNotice env i rest (error w)
    /\ bucket w' = (bucket w ++ storedFrom env i rest)%list.
Proof.
  induction rest as [|file rest IH]; intros i w.
  - exists w. simpl. rewrite app_nil_r. auto.
  - destruct (iteration_spec n i file (env i) w) as (w1 & E1 & Sp).
    destruct (IH (S i) w1) as (w2 & E2 & He & Hb).
    exists w2. split; [simpl; now rewrite E1|]. split.
    + rewrite He, (it_error _ _ _ _ _ _ Sp). simpl. unfold noticeOf.
      destruct (uploadNotice file (env i)); [reflexivity|].
      destruct (extractionNotice file (extractText file (env i))); reflexivity.
    + rewrite Hb, (it_bucket _ _ _ _ _ _ Sp). simpl.
      destruct (uploadBytes (env i)); simpl; rewrite <- ?app_assoc; reflexivity.
Qed.

Lemma handleUpload_error_bucket (localeCompare : string -> string -> Z)
  (env : nat -> Env) (getDocs : Outcome unit) (w : State) :
  exists w',
    handleUpload localeCompare env getDocs w = Some (w', propagated getDocs)
    /\ error w' = lastNotice env 0 (files w) None
    /\ bucket w' = (bucket w ++ storedFrom env 0 (files w))%list
    /\ db w' = (db w ++ createdFrom env 0 (files w))%list
    /\ files w' = [].
Proof.
  destruct (handleUpload_spec localeCompare env getDocs w)
    as (wl & w' & El & E & _ & _ & Hf & _ & _ & Hdb & _).
  exists w'. split; [exact E|].
  destruct (loop_error_bucket env (List.length (files w)) (files w) 0
              (setError None (setProgress 0 (setProcessing true w))))
    as (wl' & El' & He & Hb).
  rewrite El in El'. injection El' as <-.
  unfold handleUpload in E. rewrite El in E. unfold fetchQuotations in E.
  destruct getDocs as [[]|err]; injection E as <-; simpl; auto.
Qed.

Lemma lastNotice_quiet (env : nat -> Env) (rest : list File.t) :
  forall i acc,
    (forall j file, nth_error rest j = Some file ->
                    noticeOf file (env (i + j)%nat) = None) ->
    lastNotice env i rest acc = acc.
Proof.
  induction rest as [|f rest IH]; intros i acc H; simpl; [reflexivity|].
  pose proof (H 0%nat f eq_refl) as H0. rewrite Nat.add_0_r in H0. rewrite H0.
  apply IH. intros j file Hj. specialize (H (S j) file Hj).
  now rewrite Nat.add_succ_r in H.
Qed.

Lemma lastNotice_none (env : nat -> Env) (rest : list File.t) :
  forall i acc,
    lastNotice env i rest acc = None ->
    acc = None
    /\ forall j file, nth_error rest j = Some file ->
                      noticeOf file (env (i + j)%nat) = None.
Proof.
  induction rest as [|f rest IH]; intros i acc H; simpl in H.
  - split; [exact H|]. intros [|j] file Hj; discriminate.
  - destruct (IH _ _ H) as (Hacc & Hrest).
    destruct (noticeOf f (env i)) eqn:Ef; [discriminate|].
    split; [exact Hacc|]. intros [|j] file Hj.
    + injection Hj as <-. now rewrite Nat.add_0_r.
    + rewrite Nat.add_succ_r. now apply Hrest.
Qed.

Lemma lastNotice_last (env : nat -> Env) (rest : list File.t) :
  forall i acc k file m,
    nth_error rest k = Some file ->
    noticeOf file (env (i + k)%nat) = Some m ->
    (forall j file', (k < j)%nat -> nth_error rest j = Some file' ->
                     noticeOf file' (env (i + j)%nat) = None) ->
    lastNotice env i rest acc = Some m.
Proof.
  induction rest as [|f rest IH]; intros i acc k file m Hk Hm Hlater.
  - destruct k; discriminate.
  - destruct k as [|k]; simpl.
    + injection Hk as <-. rewrite Nat.add_0_r in Hm. rewrite Hm.
      apply lastNotice_quiet. intros j file' Hj.
      specialize (Hlater (S j) file' ltac:(lia) Hj).
      now rewrite Nat.add_succ_r in Hlater.
    + apply (IH (S i) _ k file m Hk).
      * now rewrite Nat.add_succ_r in Hm.
      * intros j file' Hlt Hj. specialize (Hlater (S j) file' ltac:(lia) Hj).
        now rewrite Nat.add_succ_r in Hlater.
Qed.

(** X6. The error banner after a run shows the notice of the last file that
    failed and nothing of the failures before it; for a file whose extraction
    and upload both failed it is the upload notice.  It is empty exactly when
    no file of the batch failed: what a previous run left in the banner is
    cleared when the run starts. *)
Theorem last_error_wins (localeCompare : string -> string -> Z)
  (env : nat -> Env) (getDocs : Outcome unit) (w : State) :
  exists w',
    handleUpload localeCompare env getDocs w = Some (w', propagated getDocs)
    /\ (error w' = None
        <-> forall k file, nth_error (files w) k = Some file ->
                           noticeOf file (env k) = None)
    /\ (forall k file m,
           nth_error (files w) k = Some file ->
           noticeOf file (env k) = Some m ->
           (forall j file', (k < j)%nat -> nth_error (files w) j = Some file' ->
                            noticeOf file' (env j) = None) ->
           error w' = Some m)
    /\ (forall file e uerr,
           uploadFailure e = Some uerr ->
           noticeOf file e
           = Some ("Upload failed: " ++ File.name file ++ ": "
                   ++ or_else (message uerr) "Upload failed"))
    /\ (forall file e t err,
           uploadFailure e = None ->
           extractText file e = Settles t (Rejected err) ->
           noticeOf file e
           = Some ("Extraction failed: " ++ File.name file ++ ": "
                   ++ or_else (message err) "Extraction failed"))
    /\ (forall file e t txt,
           uploadFailure e = None ->
           extractText file e = Settles t (Fulfilled txt) ->
           noticeOf file e = None).
Proof.
  destruct (handleUpload_error_bucket localeCompare env getDocs w)
    as (w' & E & He & _).
  exists w'. split; [exact E|]. rewrite He. split; [|split; [|split; [|split]]].
  - split.
    + intros H. apply (lastNotice_none env (files w) 0 None H).
    + intros H. now apply lastNotice_quiet.
  - intros k file m Hk Hm Hlater.
    now apply (lastNotice_last env (files w) 0 None k file m).
  - intros file e uerr Hu. unfold noticeOf, uploadNotice. now rewrite Hu.
  - intros file e t err Hu Hx. unfold noticeOf, uploadNotice. now rewrite Hu, Hx.
  - intros file e t txt Hu Hx. unfold noticeOf, uploadNotice. now rewrite Hu, Hx.
Qed.

Lemma createdBy_length (file : File.t) (env : Env) :
  List.length (createdBy file env) = if accepted env then 1%nat else 0%nat.
Proof.
  unfold createdBy, accepted, uploadFailure. backend_cases env; reflexivity.
Qed.

Lemma createdFrom_length (env : nat -> Env) (rest : list File.t) :
  forall i, List.length (createdFrom env i rest) = acceptedCount env i rest.
Proof.
  induction rest as [|file rest IH]; intros i; simpl; [reflexivity|].
  now rewrite length_app, createdBy_length, IH.
Qed.

Lemma acceptedCount_le (env : nat -> Env) (rest : list File.t) :
  forall i, (acceptedCount env i rest <= List.length rest)%nat.
Proof.
  induction rest as [|file rest IH]; intros i; simpl; [lia|].
  specialize (IH (S i)). destruct (accepted (env i)); lia.
Qed.

Lemma acceptedCount_stored (env : nat -> Env) (rest : list File.t) :
  forall i, (acceptedCount env i rest <= List.length (storedFrom env i rest)
             <= List.length rest)%nat.
Proof.
  induction rest as [|file rest IH]; intros i; simpl; [lia|].
  specialize (IH (S i)). rewrite length_app.
  unfold accepted, uploadFailure.
  destruct (uploadBytes (env i)) as [[]|e1]; simpl; [|lia].
  destruct (getDownloadURL (env i)); [destruct (addDoc (env i))|]; lia.
Qed.

Lemma storedFrom_inv (env : nat -> Env) (rest : list File.t) :
  forall i o, In o (storedFrom env i rest) ->
              exists k file, nth_error rest k = Some file
                             /\ o = (storageKey file (env (i + k)%nat), file).
Proof.
  induction rest as [|file rest IH]; intros i o; simpl; [contradiction|].
  rewrite in_app_iff. intros [H|H].
  - destruct (uploadBytes (env i)); [|contradiction].
    destruct H as [<-|[]]. exists 0%nat, file. now rewrite Nat.add_0_r.
  - destruct (IH _ _ H) as (k & f & Hk & ->).
    exists (S k), f. now rewrite Nat.add_succ_r.
Qed.

(** X7. A run only appends to the collection: the documents present before
    are kept, unchanged and in place, and one document is added for each file
    whose upload step succeeded, at most one per selected file, in the order
    of the selection. *)
Theorem run_appends_only (localeCompare : string -> string -> Z)
  (env : nat -> Env) (getDocs : Outcome unit) (w : State) :
  exists w' created,
    handleUpload localeCompare env getDocs w = Some (w', propagated getDocs)
    /\ db w' = (db w ++ created)%list
    /\ firstn (List.length (db w)) (db w') = db w
    /\ List.length created = acceptedCount env 0 (files w)
    /\ (List.length created <= List.length (files w))%nat
    /\ created = createdFrom env 0 (files w).
Proof.
  destruct (handleUpload_error_bucket localeCompare env getDocs w)
    as (w' & E & _ & _ & Hdb & _).
  exists w', (createdFrom env 0 (files w)).
  split; [exact E|]. split; [exact Hdb|]. split.
  { rewrite Hdb, firstn_app, Nat.sub_diag, firstn_all. simpl. apply app_nil_r. }
  rewrite createdFrom_length. repeat split. apply acceptedCount_le.
Qed.

Lemma storedFrom_filter (env : nat -> Env) (rest : list File.t) :
  forall i,
    storedFrom env i rest
    = map (objectOf env)
          (filter (fun kf => fulfilled (uploadBytes (env (fst kf))))
                  (indexedFrom i rest)).
Proof.
  unfold indexedFrom.
  induction rest as [|file rest IH]; intros i; simpl; [reflexivity|].
  rewrite IH. destruct (uploadBytes (env i)); reflexivity.
Qed.

Lemma storedFrom_in (env : nat -> Env) (rest : list File.t) :
  forall i k file u,
    nth_error rest k = Some file ->
    uploadBytes (env (i + k)%nat) = Fulfilled u ->
    In (storageKey file (env (i + k)%nat), file) (storedFrom env i rest).
Proof.
  induction rest as [|f rest IH]; intros i k file u Hk Hu.
  - destruct k; discriminate.
  - simpl. apply in_or_app. destruct k as [|k].
    + injection Hk as <-. rewrite Nat.add_0_r in *. rewrite Hu. left. now left.
    + right. rewrite Nat.add_succ_r in *. eapply (IH (S i) k); eauto.
Qed.

(** X8. A run puts in storage exactly one object for each file whose
    [uploadBytes] was fulfilled, in selection order, whatever the URL
    resolution and the insert then did: the object of the file at index [k]
    is that file under the key "quotations/{name}_{Date.now()}" of its
    iteration.  Every document created has its object, but an object is left
    without a document when the URL resolution or the insert fails after the
    bytes were stored. *)
Theorem stored_objects_cover_records (localeCompare : string -> string -> Z)
  (env : nat -> Env) (getDocs : Outcome unit) (w : State) :
  exists w' created stored,
    handleUpload localeCompare env getDocs w = Some (w', propagated getDocs)
    /\ db w' = (db w ++ created)%list
    /\ bucket w' = (bucket w ++ stored)%list
    /\ stored
       = map (fun kf : nat * File.t =>
                ("quotations/" ++ File.name (snd kf) ++ "_"
                 ++ decimal (Date_now (env (fst kf))), snd kf))
             (filter (fun kf => fulfilled (uploadBytes (env (fst kf))))
                     (combine (seq 0 (List.length (files w))) (files w)))
    /\ (List.length created <= List.length stored <= List.length (files w))%nat
    /\ Forall (fun d : StoredDoc =>
                 exists k file,
                   nth_error (files w) k = Some file
                   /\ uploadBytes (env k) = Fulfilled tt
                   /\ addDoc (env k) = Fulfilled (fst d)
                   /\ In (storageKey file (env k), file) stored)
              created
    /\ (forall n i file e w0 err,
           uploadBytes e = Fulfilled tt ->
           uploadFailure e = Some err ->
           exists w1,
             iteration n i file e w0 = Some w1
             /\ bucket w1 = (bucket w0 ++ [(storageKey file e, file)])%list
             /\ db w1 = db w0).
Proof.
  destruct (handleUpload_error_bucket localeCompare env getDocs w)
    as (w' & E & _ & Hb & Hdb & _).
  exists w', (createdFrom env 0 (files w)), (storedFrom env 0 (files w)).
  split; [exact E|]. split; [exact Hdb|]. split; [exact Hb|]. split.
  { apply storedFrom_filter. }
  split.
  { rewrite createdFrom_length. apply acceptedCount_stored. }
  split.
  - apply Forall_forall. intros d Hd.
    destruct (createdFrom_inv _ _ _ _ Hd) as (k & file & Hk & Hin).
    destruct (createdBy_inv _ _ _ Hin) as (url & docId & Hu & _ & Ha & ->).
    exists k, file. simpl in *. repeat split; auto.
    apply (storedFrom_in env (files w) 0 k file tt Hk Hu).
  - intros n i file e w0 err Hu Hf.
    destruct (iteration_spec n i file e w0) as (w1 & E1 & Sp).
    exists w1. split; [exact E1|]. split.
    + rewrite (it_bucket _ _ _ _ _ _ Sp). now rewrite Hu.
    + rewrite (it_db _ _ _ _ _ _ Sp), (uploadFailure_createdBy _ file _ Hf).
      apply app_nil_r.
Qed.

(** A stored object without a document: the insert is refused after the
    bytes were stored. *)
Example orphan_object :
  option_map (fun r => (List.length (bucket (fst r)), List.length (db (fst r))))
             (handleUpload codeUnitCompare (fun _ => refusingEnv) (Fulfilled tt)
                (handleFilesChange (Some [txtFile]) initial))
  = Some (1%nat, 0%nat).
Proof. vm_compute. reflexivity. Qed.

(** X9. A run consumes the selection: when it is over the upload button is
    no longer rendered, and a second run started without a new selection
    uploads nothing, whatever the backend would answer; it stores no object,
    adds no document and leaves the banner empty. *)
Theorem rerun_without_selection (localeCompare : string -> string -> Z)
  (env env' : nat -> Env) (getDocs getDocs' : Outcome unit) (w : State) :
  exists w1 w2,
    handleUpload localeCompare env getDocs w = Some (w1, propagated getDocs)
    /\ uploadButtonShown w1 = false
    /\ uploadButtonEnabled w1 = false
    /\ handleUpload localeCompare env' getDocs' w1 = Some (w2, propagated getDocs')
    /\ db w2 = db w1
    /\ bucket w2 = bucket w1
    /\ error w2 = None.
Proof.
  destruct (handleUpload_error_bucket localeCompare env getDocs w)
    as (w1 & E1 & _ & _ & _ & Hf).
  destruct (handleUpload_error_bucket localeCompare env' getDocs' w1)
    as (w2 & E2 & He & Hb & Hdb & _).
  exists w1, w2. rewrite Hf in He, Hb, Hdb. simpl in He, Hb, Hdb.
  rewrite app_nil_r in Hb, Hdb.
  unfold uploadButtonEnabled, uploadButtonShown. rewrite Hf. simpl.
  repeat split; auto.
Qed.

(** * The progress value over a batch *)

Lemma progressOK_up_to_200 : triangle progressOK 200 = true.
Proof. vm_compute. reflexivity. Qed.

Lemma percent_range (i n : nat) :
  (i < n)%nat -> (n <= 200)%nat ->
  1 <= percent i n <= 100
  /\ (S i = n -> percent i n = 100)
  /\ (S i <> n -> percent i n <= percent (S i) n).
Proof.
  intros Hi Hn.
  pose proof (triangle_spec progressOK 200 progressOK_up_to_200 i n Hi Hn) as H.
  unfold progressOK in H.
  apply andb_prop in H. destruct H as (H & Hnext).
  apply andb_prop in H. destruct H as (Hlo & Hhi).
  apply Z.leb_le in Hlo, Hhi. split; [lia|].
  destruct (Nat.eqb_spec (S i) n) as [Heq|Hne].
  - apply Z.eqb_eq in Hnext. split; [auto | contradiction].
  - apply Z.leb_le in Hnext. split; [contradiction | auto].
Qed.

(** In a batch of 201 files the first file leaves the progress at 0, and the
    progress line shows no percentage. *)
Example percent_0_201 : percent 0 201 = 0.
Proof. vm_compute. reflexivity. Qed.

(** X10. In a batch of at most 200 files the progress after each file lies
    between 1 and 100 (so the progress line shows a percentage from the first
    file on), it never decreases from one file to the next, and it is 100
    after the last file, whatever the outcome of the files. *)
Theorem progress_monotone
  (env : nat -> Env) (files : list File.t) (w : State) (i : nat) :
  (i < List.length files)%nat ->
  (List.length files <= 200)%nat ->
  exists w',
    loop env (List.length files) 0 (firstn (S i) files) w = Some w'
    /\ 1 <= progress w' <= 100
    /\ (S i = List.length files -> progress w' = 100)
    /\ ((S i < List.length files)%nat ->
        exists w'',
          loop env (List.length files) 0 (firstn (S (S i)) files) w = Some w''
          /\ progress w' <= progress w'').
Proof.
  intros Hi Hn.
  destruct (loop_prefix_progress env (List.length files) files w i Hi) as (w' & E & P).
  destruct (percent_range i (List.length files) Hi Hn) as (Hr & Hlast & Hnext).
  exists w'. rewrite P. repeat split; try lia; auto.
  intros Hlt.
  destruct (loop_prefix_progress env (List.length files) files w (S i) Hlt)
    as (w'' & E' & P').
  exists w''. rewrite P'. split; [exact E'|]. apply Hnext. lia.
Qed.

Lemma progress_monotone_witness :
  exists w',
    loop (fun _ => refusingEnv) 3 0 (firstn 2 [pdfFile; txtFile; docxFile]) initial
    = Some w'
    /\ 1 <= progress w' <= 100
    /\ (2%nat = 3%nat -> progress w' = 100)
    /\ ((2 < 3)%nat ->
        exists w'',
          loop (fun _ => refusingEnv) 3 0 (firstn 3 [pdfFile; txtFile; docxFile]) initial
          = Some w''
          /\ progress w' <= progress w'').
Proof.
  apply (progress_monotone (fun _ => refusingEnv) [pdfFile; txtFile; docxFile] initial 1);
    simpl; lia.
Defined.

(** * The summary cell of the table *)

Lemma splitOn_head_length (sep : ascii) (s : string) :
  forall a segs,
    splitOn sep s = a :: segs ->
    (String.length a
     + match segs with
       | [] => 0
       | b :: _ => 1 + String.length b
       end <= String.length s)%nat.
Proof.
  induction s as [|c s IH]; intros a segs E; simpl in E.
  - injection E as <- <-. simpl. lia.
  - destruct (Ascii.eqb c sep).
    + injection E as <- <-. simpl.
      destruct (splitOn sep s) as [|b rest] eqn:Es; [lia|].
      specialize (IH b rest eq_refl). destruct rest; simpl in *; lia.
    + destruct (splitOn sep s) as [|seg rest] eqn:Es.
      * injection E as <- <-. simpl. lia.
      * injection E as <- <-. specialize (IH seg rest eq_refl).
        destruct rest; simpl in *; lia.
Qed.

Lemma splitOn_clean (sep : ascii) (s : string) :
  Forall (fun seg => ~ In sep (chars seg)) (splitOn sep s).
Proof.
  induction s as [|c s IH]; simpl.
  - constructor; [intros [] | constructor].
  - destruct (Ascii.eqb_spec c sep) as [->|Hne].
    + constructor; [intros [] | exact IH].
    + destruct (splitOn sep s) as [|seg rest].
      * constructor; [|constructor]. simpl. intros [H|[]]. congruence.
      * inversion IH as [|? ? Hseg Hrest]; subst.
        constructor; [|exact Hrest]. simpl. intros [H|H]; [congruence | auto].
Qed.

Lemma splitOn_whole (sep : ascii) (s : string) :
  ~ In sep (chars s) -> splitOn sep s = [s].
Proof.
  induction s as [|c s IH]; simpl; intros H; [reflexivity|].
  destruct (Ascii.eqb_spec c sep) as [->|Hne]; [exfalso; auto|].
  rewrite IH; auto.
Qed.

Lemma length_append_string (a b : string) :
  String.length (a ++ b) = (String.length a + String.length b)%nat.
Proof. induction a as [|c a IH]; simpl; [reflexivity | now rewrite IH]. Qed.

Lemma splitOn_nonempty (sep : ascii) (s : string) : splitOn sep s <> [].
Proof.
  destruct s as [|c s]; simpl; [discriminate|].
  destruct (Ascii.eqb c sep); [discriminate|].
  destruct (splitOn sep s); discriminate.
Qed.

Lemma concat_cons (sep x : string) (l : list string) :
  l <> [] -> String.concat sep (x :: l) = x ++ sep ++ String.concat sep l.
Proof. destruct l; [contradiction | reflexivity]. Qed.

Lemma splitOn_join (sep : ascii) (s : string) :
  String.concat (String sep "") (splitOn sep s) = s.
Proof.
  induction s as [|c s IH]; [reflexivity|]. cbn [splitOn].
  pose proof (splitOn_nonempty sep s) as Hne.
  destruct (Ascii.eqb_spec c sep) as [->|Hc].
  - rewrite (concat_cons _ _ _ Hne), IH. reflexivity.
  - destruct (splitOn sep s) as [|seg segs]; [contradiction|].
    destruct segs as [|seg' segs].
    + simpl in *. now rewrite IH.
    + rewrite concat_cons in * by discriminate. simpl in *. f_equal. exact IH.
Qed.

(** X11. The summary cell of a row is the dash exactly when the document has
    no extracted text.  Otherwise, the text being its lines (none of which
    contains a line break) joined by line breaks, the cell is the first line
    when there is one line only, and the first line, a space and the second
    line when there are more; the lines after the second are not shown.  So
    the cell never contains a line break, is never longer than the text, and
    is the text itself when that has a single line. *)
Theorem rowSummary_one_line (q : QuotationDoc.t) :
  (exists first others,
      QuotationDoc.extractedText q
      = String.concat (String newline "") (first :: others)
      /\ Forall (fun line => ~ In newline (chars line)) (first :: others)
      /\ rowSummary q
         = match QuotationDoc.extractedText q with
           | EmptyString => None
           | String _ _ =>
               Some match others with
                    | [] => first
                    | second :: _ => first ++ " " ++ second
                    end
           end)
  /\ (rowSummary q = None <-> QuotationDoc.extractedText q = "")
  /\ forall s,
      rowSummary q = Some s ->
      ~ In newline (chars s)
      /\ (String.length s <= String.length (QuotationDoc.extractedText q))%nat
      /\ (~ In newline (chars (QuotationDoc.extractedText q)) ->
          s = QuotationDoc.extractedText q).
Proof.
  unfold rowSummary. set (txt := QuotationDoc.extractedText q).
  pose proof (splitOn_clean newline txt) as Hclean.
  pose proof (splitOn_head_length newline txt) as Hlen.
  pose proof (splitOn_join newline txt) as Hjoin.
  pose proof (splitOn_nonempty newline txt) as Hne.
  split; [|split].
  { destruct (splitOn newline txt) as [|a rest] eqn:Es; [contradiction|].
    exists a, rest. split; [now rewrite Hjoin|]. split; [exact Hclean|].
    destruct txt; [reflexivity|]. simpl truthy. cbv iota.
    destruct rest as [|b rest]; reflexivity. }
  { destruct txt; simpl; split; intros H; try reflexivity; discriminate. }
  intros s. destruct (truthy txt); [|discriminate]. intros E. injection E as <-.
  split; [|split].
  - destruct (splitOn newline txt) as [|a [|b rest]]; simpl.
    + intros [].
    + now inversion Hclean.
    + inversion Hclean as [|? ? Ha Hrest]; subst.
      inversion Hrest as [|? ? Hb _]; subst.
      rewrite !chars_append. intros H.
      apply in_app_or in H. destruct H as [H|H]; [auto|].
      simpl in H. destruct H as [H|H]; [discriminate | auto].
  - destruct (splitOn newline txt) as [|a [|b rest]]; simpl.
    + lia.
    + specialize (Hlen a [] eq_refl). simpl in Hlen. lia.
    + specialize (Hlen a (b :: rest) eq_refl). simpl in Hlen.
      rewrite !length_append_string. simpl. lia.
  - intros Hone. now rewrite (splitOn_whole _ _ Hone).
Qed.

Example rowSummary_three_lines :
  rowSummary (QuotationDoc.mk None "u" "a.txt" "text/plain" "2023-11-14T22:13:20.000Z"
                (String "a" (String newline (String "b" (String newline "c")))) None)
  = Some "a b".
Proof. reflexivity. Qed.

(** * The rows displayed and the error mark of a document *)

(** X12. A fulfilled fetch displays every document of the collection exactly
    once, whatever the host's [localeCompare] answers: the displayed list is
    a rearrangement of the collection with as many rows, and every row
    carries an id (that of its document, unless the data has a field [id] of
    its own). *)
Theorem fetch_displays_all (localeCompare : string -> string -> Z) (w : State) :
  exists w',
    fetchQuotations localeCompare (Fulfilled tt) w = (w', Fulfilled tt)
    /\ Permutation (map withId (db w)) (quotations w')
    /\ List.length (quotations w') = List.length (db w)
    /\ db w' = db w
    /\ Forall (fun q => exists d,
                   In d (db w)
                   /\ QuotationDoc.id q
                      = Some match QuotationDoc.id (snd d) with
                             | Some i => i
                             | None => fst d
                             end)
              (quotations w').
Proof.
  eexists. split; [reflexivity|]. simpl.
  pose proof (Array_sort_perm (byUploadedDesc localeCompare) (map withId (db w))) as P.
  split; [exact P|]. split; [|split; [reflexivity|]].
  - rewrite <- (Permutation_length P). apply length_map.
  - eapply Permutation_Forall; [exact P|].
    apply Forall_forall. intros q Hq. apply in_map_iff in Hq.
    destruct Hq as ([docId data] & <- & Hin).
    exists (docId, data). split; [exact Hin|]. simpl.
    destruct (QuotationDoc.id data); reflexivity.
Qed.

(** X13. A document created by a run carries an [error] exactly when the
    extraction of its file was rejected, and that error is never the empty
    string (so the table shows it for every such row); it has no [id] field
    of its own, and its name, type, timestamp and URL are those of its file
    and of the backend's answers for that file. *)
Theorem created_document_fields
  (env : nat -> Env) (n i : nat) (rest : list File.t) (w : State) :
  exists w' created,
    loop env n i rest w = Some w'
    /\ db w' = (db w ++ created)%list
    /\ Forall
         (fun d : StoredDoc =>
            exists k file,
              nth_error rest k = Some file
              /\ let e := env (i + k)%nat in
                 let r := snd d in
                 addDoc e = Fulfilled (fst d)
                 /\ getDownloadURL e = Fulfilled (QuotationDoc.fileUrl r)
                 /\ QuotationDoc.id r = None
                 /\ QuotationDoc.filename r = File.name file
                 /\ QuotationDoc.type r = File.type file
                 /\ QuotationDoc.uploaded r = toISOString e
                 /\ QuotationDoc.error r <> Some ""
                 /\ (QuotationDoc.error r = None
                     <-> exists t txt, extractText file e = Settles t (Fulfilled txt)))
         created.
Proof.
  destruct (loop_spec env n rest i w) as (w' & E & Sp).
  exists w', (createdFrom env i rest).
  split; [exact E|]. split; [apply (lp_db _ _ _ _ _ _ Sp)|].
  apply Forall_forall. intros d Hd.
  destruct (createdFrom_inv _ _ _ _ Hd) as (k & file & Hk & Hin).
  destruct (createdBy_inv _ _ _ Hin) as (url & docId & _ & Hu & Ha & ->).
  exists k, file. split; [exact Hk|]. cbv zeta. simpl fst. simpl snd.
  rewrite mkRecord_error.
  repeat split; auto.
  - destruct (extractText file (env (i + k)%nat)) as [t [txt|err]|]; simpl;
      try discriminate.
    intros H. injection H as H.
    pose proof (or_else_truthy (message err) "Extraction failed" eq_refl) as Ht.
    rewrite H in Ht. discriminate.
  - destruct (extractText_settles file (env (i + k)%nat)) as (t & o & Ex).
    rewrite Ex. destruct o as [txt|err]; simpl; [eauto | discriminate].
  - intros (t & txt & ->). reflexivity.
Qed.
